(** * minicap-socket: a shallow embedding of the device I/O engine

    The development models two source files of the repository:

    - [src/adb.py]: the capture agent client ([_Minicap.screencap],
      [_Minicap.get_display_info]);
    - [src/core/adb.py]: the bridge client ([_ADB.cmd], [_ADB.get_status],
      [_ADB.shell], [_ADB.forward], [_ADB._local_in_forwards],
      [_ADB.get_forwards], [_ADB.get_available_forward_local],
      [_Device.get_display_info]).

    Python integers are [Z], [bytes] are [list byte], [str] is [string]
    (code points below 256), exceptions are the constructors of [exn].
    Everything outside the Python process (child processes, the bridge
    server, the socket, the random generator, image decoding) is a parameter
    of the model. *)

From Stdlib Require Import ZArith Lia List Strings.Byte Ascii String Bool.
From Stdlib Require Import Permutation SpecFloat.
From Stdlib Require DecimalString DecimalPos.
From stdpp Require Import base option list strings gmap.
Import ListNotations.
Open Scope Z_scope.

(** ** Python values and exceptions *)

(** A command given to the bridge client: [Union[list, str]]. *)
Inductive cmds_t :=
| CmdStr (s : string)
| CmdList (l : list string).

(** What a child process printed: raw [bytes], or [str] once decoded. *)
Inductive pyout :=
| OBytes (bs : list byte)
| OStr (s : string).

(** The exceptions the modelled code can raise. [TypeError] covers both
    [str + bytes] and [raise None] (the value of [logger.error(...)]). *)
Inductive exn :=
| AdbError (stdout stderr : pyout) (cmds : cmds_t)
| TimeoutExpired
| UnicodeDecodeError
| TypeError
| IndexError
| KeyError (key : string)
| SystemExit
| RecursionError
| Cv2Error.

(** [chunk[cursor]] of a [bytes] object is an [int] in [0, 255];
    [int(hex(v), 16)] is [v] again. *)
Definition byte_val (b : byte) : Z := Z.of_N (Byte.to_N b).

(** The values stored in a display-information dictionary. [VObj] stands
    for any object that is neither a number, a string nor [None]. *)
Inductive pyval :=
| VNone
| VBool (b : bool)
| VInt (z : Z)
| VFloat (f : spec_float)
| VStr (s : string)
| VObj.

(** [float(z)], a binary64 number rounded to nearest even. *)
Definition float_of_int (z : Z) : spec_float :=
  binary_normalize 53 1024 z 0 false.

(** The number a value stands for in arithmetic: [bool] is a subtype of
    [int]. *)
Definition as_number (v : pyval) : option (Z + spec_float) :=
  match v with
  | VBool b => Some (inl (if b then 1 else 0))
  | VInt z => Some (inl z)
  | VFloat f => Some (inr f)
  | _ => None
  end.

(** [v / k] for a non-zero [int] [k]. The quotient of two integers is
    computed from their conversions to binary64, which is Python's result
    as long as both are below [2^53] in absolute value. *)
Definition py_truediv (v : pyval) (k : Z) : exn + pyval :=
  match as_number v with
  | Some (inl z) =>
    inr (VFloat (SFdiv 53 1024 (float_of_int z) (float_of_int k)))
  | Some (inr f) => inr (VFloat (SFdiv 53 1024 f (float_of_int k)))
  | None => inl TypeError
  end.





(** ** The capture stream: [_Minicap.screencap] (src/adb.py) *)

Module Minicap.

(** The local dictionary [banner]. *)
Record banner_t := mkBanner {
  banner_version : Z;
  banner_length : Z;
  banner_pid : Z;
  banner_realWidth : Z;
  banner_realHeight : Z;
  banner_virtualWidth : Z;
  banner_virtualHeight : Z;
  banner_orientation : Z;
  banner_quirks : Z
}.

Definition banner0 : banner_t := mkBanner 0 0 0 0 0 0 0 0 0.

(** [frameBody] starts as the [str] [''] and becomes [bytes] later. *)
Inductive pybuf :=
| PyStr (s : string)
| PyBytes (bs : list byte).

(** The local variables of [screencap] that survive a loop iteration. *)
Record cap_state := mkCap {
  readBannerBytes : Z;
  bannerLength : Z;
  readFrameBytes : Z;
  frameBodyLengthRemaining : Z;
  frameBody : pybuf;
  banner : banner_t
}.

Definition cap_init : cap_state := mkCap 0 2 0 0 (PyStr "") banner0.

(** The banner branch of the loop body, for the byte [chunk[cursor]]. *)
Definition read_banner_byte (st : cap_state) (b : byte) : cap_state :=
  let n := readBannerBytes st in
  let v := byte_val b in
  let bn := banner st in
  let '(bn', blen) :=
    if n =? 0 then
      (mkBanner v (banner_length bn) (banner_pid bn) (banner_realWidth bn)
         (banner_realHeight bn) (banner_virtualWidth bn)
         (banner_virtualHeight bn) (banner_orientation bn) (banner_quirks bn),
       bannerLength st)
    else if n =? 1 then
      (mkBanner (banner_version bn) v (banner_pid bn) (banner_realWidth bn)
         (banner_realHeight bn) (banner_virtualWidth bn)
         (banner_virtualHeight bn) (banner_orientation bn) (banner_quirks bn),
       v)
    else if (2 <=? n) && (n <=? 5) then
      (mkBanner (banner_version bn) (banner_length bn) v (banner_realWidth bn)
         (banner_realHeight bn) (banner_virtualWidth bn)
         (banner_virtualHeight bn) (banner_orientation bn) (banner_quirks bn),
       bannerLength st)
    else if n =? 23 then
      (mkBanner (banner_version bn) (banner_length bn) (banner_pid bn)
         (banner_realWidth bn) (banner_realHeight bn) (banner_virtualWidth bn)
         (banner_virtualHeight bn) (banner_orientation bn) v,
       bannerLength st)
    else (bn, bannerLength st) in
  mkCap (n + 1) blen (readFrameBytes st) (frameBodyLengthRemaining st)
        (frameBody st) bn'.

(** The frame-length branch: one little-endian length byte. *)
Definition read_len_byte (st : cap_state) (b : byte) : cap_state :=
  mkCap (readBannerBytes st) (bannerLength st) (readFrameBytes st + 1)
        (frameBodyLengthRemaining st
         + Z.shiftl (byte_val b) (readFrameBytes st * 8))
        (frameBody st) (banner st).

(** [frameBody + chunk[cursor:cursor + n]]: [str + bytes] is a
    [TypeError]. *)
Definition buf_add (fb : pybuf) (bs : list byte) : exn + list byte :=
  match fb with
  | PyStr _ => inl TypeError
  | PyBytes f => inr (f ++ bs)
  end.

(** [bytes(list(frameBody) + list(chunk[cursor:]))]: [list('')] is [[]];
    the characters of a non-empty [str] are not integers. *)
Definition buf_extend (fb : pybuf) (bs : list byte) : exn + list byte :=
  match fb with
  | PyStr EmptyString => inr bs
  | PyStr (String _ _) => inl TypeError
  | PyBytes f => inr (f ++ bs)
  end.

(** The external image library: [cv2.imdecode] yields [None] on data it
    cannot decode, and [cv2.resize] then raises. *)
Class Cv2 := {
  image : Type;
  imdecode : list byte -> option image;
  resize : image -> Z -> Z -> image
}.

(** How one pass over a chunk ends. *)
Inductive chunk_result `{Cv2} :=
| ChunkDone (st : cap_state)
| ChunkReturn (img : image) (st : cap_state)
| ChunkRaise (e : exn) (st : cap_state).

Section Screencap.
Context `{Cv2}.
Variables width height : Z.

(** The test [hex(frameBody[0]) != '0xff' or hex(frameBody[1]) != '0xd8']
    followed by [exit()], then decoding. Indexing past the end of
    [frameBody] raises [IndexError]; [exit()] raises [SystemExit]. The
    file [cv2.imwrite] writes is not part of the model. *)
Definition finish_frame (st : cap_state) (frame : list byte) : chunk_result :=
  let st' := mkCap (readBannerBytes st) (bannerLength st) (readFrameBytes st)
                   (frameBodyLengthRemaining st) (PyBytes frame) (banner st) in
  match frame with
  | [] => ChunkRaise IndexError st'
  | b0 :: tl =>
    if negb (byte_val b0 =? 255) then ChunkRaise SystemExit st'
    else match tl with
         | [] => ChunkRaise IndexError st'
         | b1 :: _ =>
           if negb (byte_val b1 =? 216) then ChunkRaise SystemExit st'
           else match imdecode frame with
                | None => ChunkRaise Cv2Error st'
                | Some img => ChunkReturn (resize img width height) st'
                end
         end
  end.

(** The frame-body branch; [rest] is [chunk[cursor:]], so that
    [len(chunk) - cursor] is [length rest]. *)
Definition read_body (st : cap_state) (rest : list byte) : chunk_result :=
  let remaining := frameBodyLengthRemaining st in
  if Z.of_nat (length rest) >=? remaining then
    match buf_add (frameBody st) (firstn (Z.to_nat remaining) rest) with
    | inl e => ChunkRaise e st
    | inr frame => finish_frame st frame
    end
  else
    match buf_extend (frameBody st) rest with
    | inl e => ChunkRaise e st
    | inr fb =>
      ChunkDone (mkCap (readBannerBytes st) (bannerLength st)
                       (readFrameBytes st + Z.of_nat (length rest))
                       (remaining - Z.of_nat (length rest))
                       (PyBytes fb) (banner st))
    end.

(** [while cursor < len(chunk)]: the argument is [chunk[cursor:]]. *)
Fixpoint read_chunk (st : cap_state) (rest : list byte) : chunk_result :=
  match rest with
  | [] => ChunkDone st
  | b :: rest' =>
    if readBannerBytes st <? bannerLength st then
      read_chunk (read_banner_byte st b) rest'
    else if readFrameBytes st <? 4 then
      read_chunk (read_len_byte st b) rest'
    else read_body st rest
  end.

(** How a call of [screencap] ends: it returns an image, raises, or is
    still waiting in [recv] after the chunks received so far. *)
Inductive outcome :=
| Returned (img : image)
| Raised (e : exn)
| Waiting.

Record cap_result := mkCapResult {
  cap_outcome : outcome;
  cap_socket_closed : bool;
  cap_final : cap_state
}.

(** [while True: chunk = client_socket.recv(36000) ...] over the chunks
    the socket delivers. Only the returning path calls
    [client_socket.close()]. *)
Fixpoint recv_loop (st : cap_state) (chunks : list (list byte)) : cap_result :=
  match chunks with
  | [] => mkCapResult Waiting false st
  | chunk :: more =>
    if (length chunk =? 0)%nat then recv_loop st more
    else match read_chunk st chunk with
         | ChunkDone st' => recv_loop st' more
         | ChunkReturn img st' => mkCapResult (Returned img) true st'
         | ChunkRaise e st' => mkCapResult (Raised e) false st'
         end
  end.

(** [screencap], once the socket is connected and [_display_info] holds
    [width] and [height]. *)
Definition screencap (chunks : list (list byte)) : cap_result :=
  recv_loop cap_init chunks.

End Screencap.

(** [_Minicap.get_display_info] after its three shell calls: [info] is
    the object [json.loads] returns for the output of the agent, [wm_size]
    and [wm_dpi] are the matches [re.findall] returns, read by [int]. *)
Definition get_display_info (info : gmap string pyval)
    (wm_size : list (Z * Z)) (wm_dpi : list Z) : exn + gmap string pyval :=
  match info !! "rotation"%string with
  | None => inl (KeyError "rotation")
  | Some rotation =>
    match py_truediv rotation 90 with
    | inl e => inl e
    | inr orientation =>
      let d := <["orientation"%string := orientation]> info in
      let sized :=
        match wm_size with
        | [] => inr d
        | (w, h) :: _ =>
          match d !! "width"%string with
          | None => inl (KeyError "width")
          | Some w0 =>
            let d1 := <["physical_width"%string := w0]> d in
            match d1 !! "height"%string with
            | None => inl (KeyError "height")
            | Some h0 =>
              inr (<["height"%string := VInt h]>
                     (<["width"%string := VInt w]>
                        (<["physical_height"%string := h0]> d1)))
            end
          end
        end in
      match sized with
      | inl e => inl e
      | inr d2 =>
        match wm_dpi with
        | [] => inr d2
        | dpi :: _ => inr (<["dpi"%string := VInt dpi]> d2)
        end
      end
    end
  end.

(** A stand-in for the image library, for running the model: every frame
    decodes to its own bytes. *)
Definition raw_cv2 : Cv2 :=
  {| image := list byte; imdecode := fun bs => Some bs;
     resize := fun img _ _ => img |}.

(** The banner of the capture agent used in the scenarios. *)
Definition banner_1920x1080 : list byte :=
  [x01; x18; x00; x00; x00; x00; x80; x07; x00; x00; x38; x04;
   x00; x00; x80; x07; x00; x00; x38; x04; x00; x00; x01; x00].

(** A frame that starts with the JPEG start-of-image marker. *)
Definition starts_with_soi (frame : list byte) : Prop :=
  exists tl, frame = xff :: xd8 :: tl.



End Minicap.

(** ** Python string operations used by the bridge client *)

Module PyStr.
Open Scope string_scope.

(** [str.isspace] on the code points below 256: TAB..CR, FS..US, space,
    NEL and the no-break space. *)
Definition is_space (c : ascii) : bool :=
  let n := N_of_ascii c in
  ((9 <=? n) && (n <=? 13) || (28 <=? n) && (n <=? 31)
   || (n =? 32) || (n =? 133) || (n =? 160))%N.

(** The line boundaries of [str.splitlines] below 256: LF, VT, FF, CR,
    FS, GS, RS and NEL. *)
Definition is_linebreak (c : ascii) : bool :=
  let n := N_of_ascii c in
  ((10 <=? n) && (n <=? 13) || (28 <=? n) && (n <=? 30) || (n =? 133))%N.

Definition is_cr (c : ascii) : bool := (N_of_ascii c =? 13)%N.
Definition is_lf (c : ascii) : bool := (N_of_ascii c =? 10)%N.

Definition is_empty (s : string) : bool :=
  match s with EmptyString => true | String _ _ => false end.

Fixpoint lstrip (s : string) : string :=
  match s with
  | EmptyString => EmptyString
  | String c s' => if is_space c then lstrip s' else s
  end.

Fixpoint rstrip (s : string) : string :=
  match s with
  | EmptyString => EmptyString
  | String c s' =>
    match rstrip s' with
    | EmptyString => if is_space c then EmptyString else String c EmptyString
    | t => String c t
    end
  end.

Definition strip (s : string) : string := rstrip (lstrip s).

(** [s.split()]: the maximal runs of non-space characters. *)
Fixpoint split (s : string) : list string :=
  match s with
  | EmptyString => []
  | String c s' =>
    if is_space c then split s'
    else match s' with
         | EmptyString => [String c EmptyString]
         | String c' _ =>
           if is_space c' then String c EmptyString :: split s'
           else match split s' with
                | w :: ws => String c w :: ws
                | [] => [String c EmptyString]
                end
         end
  end.

(** [s.splitlines()]; [skip_lf] is set right after a CR, whose LF belongs
    to the same line boundary. *)
Fixpoint lines_from (skip_lf : bool) (s : string) : list string :=
  match s with
  | EmptyString => []
  | String c s' =>
    if skip_lf && is_lf c then lines_from false s'
    else if is_linebreak c then EmptyString :: lines_from (is_cr c) s'
    else match lines_from false s' with
         | l :: ls => String c l :: ls
         | [] => [String c EmptyString]
         end
  end.

Definition splitlines (s : string) : list string := lines_from false s.

Fixpoint is_prefix (p s : string) : bool :=
  match p with
  | EmptyString => true
  | String a p' =>
    match s with
    | EmptyString => false
    | String b s' => Ascii.eqb a b && is_prefix p' s'
    end
  end.

(** [needle in hay]. *)
Fixpoint contains (needle hay : string) : bool :=
  is_prefix needle hay
  || match hay with
     | EmptyString => false
     | String _ hay' => contains needle hay'
     end.

(** [\d] below 256 is [0-9]. *)
Definition digit_val (c : ascii) : option Z :=
  let n := N_of_ascii c in
  if ((48 <=? n) && (n <=? 57))%N then Some (Z.of_N n - 48) else None.

(** The longest run of digits at the front of [s], read as [int], together
    with what follows it; [None] when [s] does not start with a digit. *)
Fixpoint take_digits (acc : option Z) (s : string) : option Z * string :=
  match s with
  | EmptyString => (acc, s)
  | String c s' =>
    match digit_val c with
    | Some d => take_digits (Some (10 * default 0 acc + d)) s'
    | None => (acc, s)
    end
  end.

(** Whether [s] matches [---(\d+)---$] from its first character; [$] is
    the end of the string or the position before a final newline. *)
Definition marker_suffix (s : string) : option Z :=
  match s with
  | String "-" (String "-" (String "-" s1)) =>
    match take_digits None s1 with
    | (Some n, s2) =>
      if String.eqb s2 "---"
         || String.eqb s2 ("---" ++ String "010" EmptyString)
      then Some n else None
    | (None, _) => None
    end
  | _ => None
  end.

(** [re.match] of the pattern made of a greedy any-character group
    followed by [---(\d+)---$], with [re.DOTALL]: the first group takes
    the longest prefix after which the marker matches. The result is
    [(m.group(1), int(m.group(2)))]. *)
Fixpoint match_marker (out : string) : option (string * Z) :=
  match out with
  | EmptyString => None
  | String c out' =>
    match match_marker out' with
    | Some (g1, n) => Some (String c g1, n)
    | None =>
      match marker_suffix out with
      | Some n => Some (EmptyString, n)
      | None => None
      end
    end
  end.

End PyStr.

(** ** The bridge client: [_ADB] (src/core/adb.py) *)

Module Bridge.
Import PyStr.
Open Scope string_scope.

(** What [proc.communicate] observes of a child process. [proc_expired]
    tells whether [communicate(timeout=t)] raised [TimeoutExpired]; the
    streams are then those drained after [proc.kill()]. *)
Record proc_result := mkProc {
  proc_stdout : list byte;
  proc_stderr : list byte;
  proc_returncode : Z;
  proc_expired : bool
}.

(** The host the library runs on. [communicate argv timeout w] is
    [subprocess.Popen(argv)] followed by [communicate] in the world [w];
    the decoders are [bytes.decode] for the encoding of
    [get_std_encoding(stdout)] (the file system's), of
    [get_std_encoding(sys.stdout)] and of [SHELL_ENCODING], [None] standing
    for [UnicodeDecodeError]; [py_repr] is [repr]. *)
Class Host := {
  world : Type;
  communicate : list string -> option Z -> world -> proc_result * world;
  decode_fs : list byte -> option string;
  decode_sys_stdout : list byte -> option string;
  decode_shell : list byte -> option string;
  py_repr : list byte -> string
}.

(** A call returns a value or raises. *)
Inductive result (A : Type) :=
| Ok (a : A)
| Err (e : exn).
Arguments Ok {A} a.
Arguments Err {A} e.

Section Monad.
Context `{Host}.

(** The state threaded through the client: the outside world and the
    argument vectors handed to [subprocess.Popen] so far. *)
Record state := mkState {
  st_world : world;
  st_trace : list (list string)
}.

(** Computations that read and change the state and may raise. *)
Definition M (A : Type) : Type := state -> result A * state.

Definition ret {A} (a : A) : M A := fun s => (Ok a, s).
Definition raise {A} (e : exn) : M A := fun s => (Err e, s).
Definition bind {A B} (m : M A) (k : A -> M B) : M B :=
  fun s => match m s with
           | (Ok a, s') => k a s'
           | (Err e, s') => (Err e, s')
           end.

(** [try: m  except AdbError: h]. *)
Definition catch_AdbError {A} (m : M A) (h : exn -> M A) : M A :=
  fun s => match m s with
           | (Err (AdbError o e c), s') => h (AdbError o e c) s'
           | r => r
           end.

End Monad.

Notation "x <- m ;; k" := (bind m (fun x => k))
  (at level 100, m at next level, right associativity).

(** The fields of [_ADB] that the modelled methods read. *)
Record ADB := mkADB {
  device_id : option string;
  cmd_options : list string;
  host : string;
  _sdk_version : Z
}.

Section Client.
Context `{Host}.

(** Truth value of an optional [str]: [None] and [''] are false. *)
Definition truthy (s : option string) : bool :=
  match s with
  | Some (String _ _) => true
  | _ => false
  end.

Definition split_cmd (cmds : cmds_t) : list string :=
  match cmds with
  | CmdStr s => split s
  | CmdList l => l
  end.

(** [subprocess.Popen(cmds, ...)]: the process handle is its argument
    vector, which is recorded. *)
Definition popen (argv : list string) : M (list string) :=
  fun s => (Ok argv, mkState (st_world s) (st_trace s ++ [argv])).

(** [proc.communicate(timeout=timeout)]. *)
Definition proc_communicate (proc : list string) (timeout : option Z)
  : M proc_result :=
  fun s => let '(r, w) := communicate proc timeout (st_world s) in
           (Ok r, mkState w (st_trace s)).

(** [start_cmd]. Without a device id it executes
    [raise logger.error(...)], that is [raise None]: a [TypeError]. *)
Definition start_cmd (self : ADB) (cmds : cmds_t) (devices : bool)
  : M (list string) :=
  let cmds := split_cmd cmds in
  if devices then
    match device_id self with
    | Some (String c d) =>
      popen (cmd_options self ++ ["-s"; String c d] ++ cmds)
    | _ => raise TypeError
    end
  else popen (cmd_options self ++ cmds).

(** The argument vector [start_cmd] builds, when it builds one. *)
Definition argv_of (self : ADB) (cmds : cmds_t) (devices : bool)
  : option (list string) :=
  if devices then
    match device_id self with
    | Some (String c d) =>
      Some (cmd_options self ++ ["-s"; String c d] ++ split_cmd cmds)%list
    | _ => None
    end
  else Some (cmd_options self ++ split_cmd cmds)%list.

(** The type of the standard output [cmd] returns. *)
Definition out_t (ensure_unicode : bool) : Type :=
  if ensure_unicode then string else list byte.

Definition to_pyout {u : bool} : out_t u -> pyout :=
  match u with
  | true => OStr
  | false => OBytes
  end.

(** [stdout.decode(get_std_encoding(stdout))] when [ensure_unicode];
    [None] stands for [UnicodeDecodeError]. *)
Definition decoded (u : bool) (bs : list byte) : option (out_t u) :=
  match u return option (out_t u) with
  | true => decode_fs bs
  | false => Some bs
  end.

Definition decode_out (u : bool) (bs : list byte) : M (out_t u) :=
  match decoded u bs with
  | Some o => ret o
  | None => raise UnicodeDecodeError
  end.

(** [if timeout:] on [timeout: int = None]. *)
Definition timeout_set (timeout : option Z) : bool :=
  match timeout with
  | Some t => negb (t =? 0)%Z
  | None => false
  end.

(** [cmd]. *)
Definition cmd (self : ADB) (cmds : cmds_t) (devices ensure_unicode : bool)
    (timeout : option Z) (skip_error : bool) : M (out_t ensure_unicode) :=
  proc <- start_cmd self cmds devices ;;
  r <- (if timeout_set timeout then
          r <- proc_communicate proc timeout ;;
          if proc_expired r then raise TimeoutExpired else ret r
        else proc_communicate proc None) ;;
  stdout <- decode_out ensure_unicode (proc_stdout r) ;;
  stderr <- decode_out ensure_unicode (proc_stderr r) ;;
  if (proc_returncode r >? 0)%Z then
    if negb skip_error then
      raise (AdbError (to_pyout stdout) (to_pyout stderr) cmds)
    else ret stdout
  else ret stdout.

(** [get_status]: [None] is Python's [None]. *)
Definition get_status (self : ADB) : M (option string) :=
  proc <- start_cmd self (CmdStr "get-state") true ;;
  r <- proc_communicate proc None ;;
  match decode_sys_stdout (proc_stdout r) with
  | None => raise UnicodeDecodeError
  | Some stdout =>
    match decode_sys_stdout (proc_stderr r) with
    | None => raise UnicodeDecodeError
    | Some stderr =>
      if (proc_returncode r =? 0)%Z then ret (Some (strip stdout))
      else if contains "not found" stderr then ret None
      else raise (AdbError (OStr stdout) (OStr stderr) (CmdList ["get-state"]))
    end
  end.

(** [raw_shell]; an undecodable output is returned as its [repr]. *)
Definition raw_shell (self : ADB) (cmds : cmds_t)
    (ensure_unicode skip_error : bool) : M (out_t ensure_unicode) :=
  let cmds := CmdList ("shell" :: split_cmd cmds) in
  stdout <- cmd self cmds true false None skip_error ;;
  match ensure_unicode return M (out_t ensure_unicode) with
  | false => ret stdout
  | true => match decode_shell stdout with
            | Some s => ret s
            | None => ret (py_repr stdout)
            end
  end.

(** [shell]. Both error paths execute [raise logger.error(...)], and
    [logger.error] returns [None]. *)
Definition shell (self : ADB) (cmd : cmds_t) : M string :=
  if (_sdk_version self <? 25)%Z then
    let cmd := CmdList (split_cmd cmd ++ [";"; "echo"; "---$?---"]) in
    raw <- raw_shell self cmd true false ;;
    let out := rstrip raw in
    let '(stdout, returncode) :=
      match match_marker out with
      | None => (out, 0%Z)
      | Some (g1, n) => (g1, n)
      end in
    if (returncode >? 0)%Z then raise TypeError else ret stdout
  else
    catch_AdbError (raw_shell self cmd true false) (fun _ => raise TypeError).

(** An entry [{'local': ..., 'remote': ...}] of the forward list. *)
Record fwd := mkFwd {
  fwd_local : string;
  fwd_remote : string
}.

(** The body of the loop of [get_forwards], for one line. *)
Definition forward_of_line (line : string) : option fwd :=
  let line := strip line in
  if is_empty line then None
  else match split line with
       | [_; local; remote] => Some (mkFwd local remote)
       | _ => None
       end.

Definition parse_forwards (out : string) : list fwd :=
  omap forward_of_line (splitlines out).

(** [get_forwards]. *)
Definition get_forwards (self : ADB) : M (list fwd) :=
  out <- cmd self (CmdList ["forward"; "--list"]) false true None true ;;
  ret (parse_forwards out).

(** The loop of [_local_in_forwards] from index [i] on. *)
Fixpoint scan_forwards (local remote : option string) (i : nat)
    (l : list fwd) : bool * option nat :=
  match l with
  | [] => (false, None)
  | value :: l' =>
    if truthy local && bool_decide (Some (fwd_local value) = local)
    then (true, Some i)
    else if truthy remote && bool_decide (Some (fwd_remote value) = remote)
    then (true, Some i)
    else scan_forwards local remote (S i) l'
  end.

(** [_local_in_forwards]. *)
Definition _local_in_forwards (self : ADB) (local remote : option string)
  : M (bool * option nat) :=
  l <- get_forwards self ;;
  ret (scan_forwards local remote 0 l).

(** The argument list [forward] passes to [cmd]. *)
Definition forward_cmds (local remote : string) (no_rebind : bool)
  : list string :=
  (["forward"] ++ (if no_rebind then ["--no-rebind"] else []))
  ++ [local; remote].

(** [forward]. The logging branch indexes a fresh list with [index]. *)
Definition forward (self : ADB) (local remote : string) (no_rebind : bool)
  : M unit :=
  r <- _local_in_forwards self (Some local) (Some remote) ;;
  let '(is_use, index) := r in
  if negb is_use then
    _ <- cmd self (CmdList (forward_cmds local remote no_rebind))
             true true None false ;;
    ret tt
  else
    forward_local_using <- get_forwards self ;;
    match index with
    | None => raise TypeError
    | Some i =>
      match forward_local_using !! i with
      | Some _ => ret tt
      | None => raise IndexError
      end
    end.

(** The two argument vectors [forward] can hand to the bridge. *)
Definition list_argv (self : ADB) : list string :=
  cmd_options self ++ ["forward"; "--list"].

Definition forward_argv (self : ADB) (serial local remote : string)
    (no_rebind : bool) : list string :=
  cmd_options self ++ ["-s"; serial] ++ forward_cmds local remote no_rebind.

(** The child processes started between the states [s] and [s']. *)
Definition issued_since (s s' : state) : list (list string) :=
  drop (length (st_trace s)) (st_trace s').

(** The live forward list: what [get_forwards] returns in the state [s]. *)
Definition live (self : ADB) (s : state) : result (list fwd) :=
  fst (get_forwards self s).

(** An entry that neither has the given local nor the given remote. *)
Definition no_match (local remote : string) (e : fwd) : Prop :=
  fwd_local e <> local /\ fwd_remote e <> remote.


(** What makes [forward] idempotent is outside the repository: the bridge
    server keeps the forward table. Its contract, as far as the client
    relies on it for the pair [(local, remote)]: listing does not change
    what the next listing shows, and a [forward --no-rebind] that succeeds
    adds exactly the requested entry. *)
Class ForwardContract (self : ADB) (local remote : string) : Prop := {
  list_stable : forall s,
    fst (get_forwards self (snd (get_forwards self s)))
    = fst (get_forwards self s);
  forward_adds : forall s out s' l,
    cmd self (CmdList (forward_cmds local remote true)) true true None false s
    = (Ok out, s') ->
    fst (get_forwards self s) = Ok l ->
    exists l', fst (get_forwards self s') = Ok l'
               /\ Permutation l' (mkFwd local remote :: l)
}.

(** [_Device.get_display_info]. The three probes it calls run shell
    commands and match their output; they are kept abstract. *)
Section DisplayInfo.
Variable getPhysicalDisplayInfo : M (gmap string pyval).
Variable getDisplayOrientation : M Z.
Variable getMaxXY : M (option Z * option Z).

Definition of_optional (v : option Z) : pyval :=
  match v with
  | Some z => VInt z
  | None => VNone
  end.

Definition get_display_info : M (gmap string pyval) :=
  display_info <- getPhysicalDisplayInfo ;;
  orientation <- getDisplayOrientation ;;
  xy <- getMaxXY ;;
  let '(max_x, max_y) := xy in
  ret (<["max_y" := of_optional max_y]>
         (<["max_x" := of_optional max_x]>
            (<["rotation" := VInt (orientation * 90)]>
               (<["orientation" := VInt orientation]> display_info)))).

End DisplayInfo.

End Client.

(** The random generator and the TCP stack of the host, as the successive
    attempts of [get_available_forward_local] meet them: [draw i] is the
    entropy the [i]-th [random.randint] consumes, [bind_ok i host port]
    tells whether the [i]-th [sock.bind((host, port))] succeeds. *)
Class PortEnv := {
  draw : nat -> N;
  bind_ok : nat -> string -> Z -> bool
}.

(** [random.randint(a, b)]: an integer [N] with [a <= N <= b]. *)
Definition randint (a b : Z) (entropy : N) : Z :=
  a + Z.of_N entropy mod (b - a + 1).

(** The port the [i]-th attempt draws. *)
Definition port_at `{PortEnv} (i : nat) : Z := randint 11111 20000 (draw i).

(** [get_available_forward_local], at its [i]-th attempt. The method
    calls itself after a failed bind; [depth] is the number of frames the
    interpreter still allows, and [RecursionError] is raised beyond. *)
Fixpoint get_available_forward_local `{PortEnv} (self : ADB)
    (depth i : nat) : result Z :=
  match depth with
  | O => Err RecursionError
  | S depth' =>
    let port := randint 11111 20000 (draw i) in
    if bind_ok i (host self) port then Ok port
    else get_available_forward_local self depth' (S i)
  end.

End Bridge.

(** ** A simulated host

    A small bridge server to run the client against: it keeps the forward
    table, answers [forward --list] and [forward --no-rebind], and plays a
    script for every other command. Output is encoded in Latin-1. *)

Module Sim.
Import PyStr Bridge.
Open Scope string_scope.

Record row := mkRow {
  row_serial : string;
  row_local : string;
  row_remote : string
}.

Record sim_world := mkSim {
  sim_forwards : list row;
  sim_script : list string -> proc_result
}.

Definition newline : string := String "010" EmptyString.

Definition render_row (r : row) : string :=
  row_serial r ++ " " ++ row_local r ++ " " ++ row_remote r ++ newline.

Fixpoint render (rows : list row) : string :=
  match rows with
  | [] => ""
  | r :: rows' => render_row r ++ render rows'
  end.

(** A word the bridge accepts as serial or socket name. *)
Fixpoint no_space (s : string) : bool :=
  match s with
  | EmptyString => true
  | String c s' => negb (is_space c) && no_space s'
  end.

Definition is_word (s : string) : bool := negb (is_empty s) && no_space s.

(** A string without line boundary. *)
Fixpoint no_linebreak (s : string) : bool :=
  match s with
  | EmptyString => true
  | String c s' => negb (is_linebreak c) && no_linebreak s'
  end.

Definition local_bound (l : string) (rows : list row) : bool :=
  existsb (fun r => String.eqb (row_local r) l) rows.

Definition exit_ok (out : string) (w : sim_world) : proc_result * sim_world :=
  (mkProc (list_byte_of_string out) [] 0 false, w).

Definition exit_err (err : string) (w : sim_world) : proc_result * sim_world :=
  (mkProc [] (list_byte_of_string err) 1 false, w).

Definition sim_communicate (argv : list string) (timeout : option Z)
    (w : sim_world) : proc_result * sim_world :=
  match argv with
  | ["adb"; "forward"; "--list"] => exit_ok (render (sim_forwards w)) w
  | ["adb"; "-s"; serial; "forward"; "--no-rebind"; l; r] =>
    if is_word serial && is_word l && is_word r then
      if local_bound l (sim_forwards w) then
        exit_err "error: cannot rebind existing socket" w
      else exit_ok "" (mkSim (sim_forwards w ++ [mkRow serial l r])
                          (sim_script w))
    else exit_err "error: bad forward specification" w
  | _ => (sim_script w argv, w)
  end.

Definition latin1 (bs : list byte) : option string :=
  Some (string_of_list_byte bs).

Definition sim_host : Host :=
  {| world := sim_world;
     communicate := sim_communicate;
     decode_fs := latin1;
     decode_sys_stdout := latin1;
     decode_shell := latin1;
     py_repr := string_of_list_byte |}.

(** A device handle on the default bridge endpoint. *)
Definition device (serial : string) (sdk : Z) : ADB :=
  mkADB (Some serial) ["adb"] "127.0.0.1" sdk.

(** A script that answers every command with the same result. *)
Definition always (r : proc_result) : list string -> proc_result :=
  fun _ => r.

Definition start (rows : list row) (script : list string -> proc_result)
  : @state sim_host :=
  @mkState sim_host (mkSim rows script) [].

(** A host on which the ports in [busy] are taken; the successive draws
    give the entropy listed in [draws], then [last]. *)
Definition scripted_ports (draws : list N) (last : N) (busy : list Z)
  : PortEnv :=
  {| draw := fun i => nth i draws last;
     bind_ok := fun _ _ port => negb (existsb (Z.eqb port) busy) |}.

(** *** Scenarios *)

Definition emulator (sdk : Z) : ADB := device "emulator-5554" sdk.

Definition bytes_of (s : string) : list byte := list_byte_of_string s.

(** Every child prints nothing and exits with [rc]. *)
Definition silent (rc : Z) : @state sim_host :=
  start [] (always (mkProc [] [] rc false)).

(** Every child prints [out] and [err] and exits with [rc]. *)
Definition printing (out err : string) (rc : Z) : @state sim_host :=
  start [] (always (mkProc (bytes_of out) (bytes_of err) rc false)).

(** An old device answering [false ; echo ---$?---]: the bridge exits
    with 0 and the marker carries the return code 1. *)
Definition marker_1 : @state sim_host :=
  printing ("---1---" ++ String "013" newline) "" 0.

(** The forward table holds [tcp:1 -> localabstract:minicap]. *)
Definition minicap_forwarded : @state sim_host :=
  start [mkRow "emulator-5554" "tcp:1" "localabstract:minicap"]
        (always (mkProc [] [] 0 false)).



End Sim.


(** ** More Python string operations *)

Module PyText.
Import PyStr.
Open Scope string_scope.

(** [str(z)] for an [int], and [z] formatted by [%s]. *)
Definition str_int (z : Z) : string :=
  DecimalString.NilZero.string_of_int (Z.to_int z).

(** [\w] on the code points below 256: what [str.isalnum] accepts, and the
    underscore. *)
Definition is_word_char (c : ascii) : bool :=
  let n := N_of_ascii c in
  ((48 <=? n) && (n <=? 57) || (65 <=? n) && (n <=? 90) || (n =? 95)
   || (97 <=? n) && (n <=? 122) || (n =? 170) || (178 <=? n) && (n <=? 179)
   || (n =? 181) || (185 <=? n) && (n <=? 186) || (188 <=? n) && (n <=? 190)
   || (192 <=? n) && (n <=? 214) || (216 <=? n) && (n <=? 246)
   || (248 <=? n) && (n <=? 255))%N.

(** The class [[\w\d.:-]]. *)
Definition is_serial_char (c : ascii) : bool :=
  let n := N_of_ascii c in
  (is_word_char c || (n =? 46) || (n =? 58) || (n =? 45))%N.

Fixpoint all_chars (p : ascii -> bool) (s : string) : bool :=
  match s with
  | EmptyString => true
  | String c s' => p c && all_chars p s'
  end.

(** [s.split(sep)] for a separator of one character. *)
Fixpoint split_on (sep : ascii) (s : string) : list string :=
  match s with
  | EmptyString => [EmptyString]
  | String c s' =>
    if Ascii.eqb c sep then EmptyString :: split_on sep s'
    else match split_on sep s' with
         | w :: ws => String c w :: ws
         | [] => [String c EmptyString]
         end
  end.

(** What is left of [s] after the prefix [p], if [s] starts with [p]. *)
Fixpoint strip_prefix (p s : string) : option string :=
  match p with
  | EmptyString => Some s
  | String a p' =>
    match s with
    | EmptyString => None
    | String b s' => if Ascii.eqb a b then strip_prefix p' s' else None
    end
  end.

(** A match of the literal [pre] followed by [(\d+)] at the start of [s]:
    the group, read by [int]. *)
Definition digits_after (pre s : string) : option Z :=
  match strip_prefix pre s with
  | Some rest => fst (take_digits None rest)
  | None => None
  end.

(** [re.search] of such a pattern: the leftmost match. It is also the
    first element of [re.findall]. *)
Fixpoint search_digits_after (pre s : string) : option Z :=
  match digits_after pre s with
  | Some n => Some n
  | None =>
    match s with
    | EmptyString => None
    | String _ s' => search_digits_after pre s'
    end
  end.

(** The same for the literal [pre] followed by [\s+(\d+)]. *)
Definition spaced_digits_after (pre s : string) : option Z :=
  match strip_prefix pre s with
  | Some (String c rest) =>
    if is_space c then fst (take_digits None (lstrip rest)) else None
  | _ => None
  end.

Fixpoint search_spaced_digits_after (pre s : string) : option Z :=
  match spaced_digits_after pre s with
  | Some n => Some n
  | None =>
    match s with
    | EmptyString => None
    | String _ s' => search_spaced_digits_after pre s'
    end
  end.

(** [s] without one final line feed: where [$] may match. *)
Fixpoint chomp_lf (s : string) : string :=
  match s with
  | EmptyString => EmptyString
  | String c s' =>
    match s' with
    | EmptyString => if is_lf c then EmptyString else s
    | String _ _ => String c (chomp_lf s')
    end
  end.

End PyText.

(** ** More of the bridge client: [_ADB] and [_Device] (src/core/adb.py) *)

Module Device.
Import PyStr PyText Bridge.
Open Scope string_scope.

(** [_set_cmd_options]: the value it gives [self.cmd_options]. *)
Definition _set_cmd_options (adb_path host : string) (port : Z)
  : list string :=
  ([adb_path]
   ++ (if String.eqb host "localhost" || String.eqb host "127.0.0.1"
       then [] else ["-H"; host])
   ++ (if (port =? 5037)%Z then [] else ["-P"; str_int port]))%list.

(** A line that matches [^[\w\d.:-]+\t[\w]+$], split at its tab. *)
Definition device_of_line (line : string) : option (string * string) :=
  match split_on "009" line with
  | [serialno; cstate] =>
    if negb (is_empty serialno) && all_chars is_serial_char serialno
       && negb (is_empty (chomp_lf cstate))
       && all_chars is_word_char (chomp_lf cstate)
    then Some (serialno, cstate) else None
  | _ => None
  end.

(** The body of the loop of [devices], for one line. *)
Definition device_entry (state : option string) (line : string)
  : option (string * string) :=
  let line := strip line in
  if is_empty line then None
  else match device_of_line line with
       | None => None
       | Some (serialno, cstate) =>
         if truthy state && negb (bool_decide (Some cstate = state))
         then None else Some (serialno, cstate)
       end.

Definition parse_devices (state : option string) (output : string)
  : list (string * string) :=
  omap (device_entry state) (splitlines output).

Section Methods.
Context `{Host}.

(** [devices]. *)
Definition devices (self : ADB) (state : option string)
  : M (list (string * string)) :=
  output <- cmd self (CmdStr "devices") false true None false ;;
  ret (parse_devices state output).

(** [connect]: the status is compared with ['devices']. *)
Definition connect (self : ADB) (force : bool) : M unit :=
  match device_id self with
  | Some (String c d) =>
    if contains ":" (String c d) then
      go <- (if force then ret true
             else status <- get_status self ;;
                  ret (negb (bool_decide (status = Some "devices")))) ;;
      if (go : bool) then
        _ <- cmd self (CmdStr ("connect " ++ String c d))
                 false true None false ;;
        ret tt
      else ret tt
    else ret tt
  | _ => ret tt
  end.

(** [disconnect]: [':' in None] is a [TypeError]. *)
Definition disconnect (self : ADB) : M unit :=
  match device_id self with
  | None => raise TypeError
  | Some id =>
    if contains ":" id then
      _ <- cmd self (CmdStr ("disconnect " ++ id)) false true None false ;;
      ret tt
    else ret tt
  end.

(** [start_shell]. *)
Definition start_shell (self : ADB) (cmds : cmds_t) : M (list string) :=
  start_cmd self (CmdList ("shell" :: split_cmd cmds)) true.

(** [getprop]. *)
Definition getprop (self : ADB) (key : string) (strip : bool) : M string :=
  prop <- raw_shell self (CmdList ["getprop"; key]) true false ;;
  ret (if strip then rstrip prop else prop).

(** [check_file]: [bool] of a [str] tells whether it is non-empty. *)
Definition check_file (self : ADB) (path name : string) : M bool :=
  out <- raw_shell self (CmdList ["find"; path; "-name"; name]) true false ;;
  ret (negb (is_empty out)).

(** [remove_forward]. *)
Definition remove_forward (self : ADB) (local : option string) : M unit :=
  let cmds :=
    match local with
    | Some (String c l) => ["forward"; "--remove"; String c l]
    | _ => ["forward"; "--remove-all"]
    end in
  _ <- cmd self (CmdList cmds) true true None false ;;
  ret tt.

(** [set_forward], with the attempts left to
    [get_available_forward_local]. *)
Definition set_forward `{PortEnv} (self : ADB) (depth i : nat)
    (remote : string) : M (Z * string) :=
  match get_available_forward_local self depth i with
  | Err e => raise e
  | Ok localport =>
    _ <- forward self ("tcp:" ++ str_int localport) remote true ;;
    ret (localport, remote)
  end.

(** [get_forward_port]: [None] when no entry has the remote. *)
Definition get_forward_port (self : ADB) (remote : string)
  : M (option Z) :=
  index <- _local_in_forwards self None (Some ("localabstract:" ++ remote)) ;;
  if negb (fst index) then ret None
  else
    l <- get_forwards self ;;
    match snd index with
    | None => raise TypeError
    | Some i =>
      match l !! i with
      | None => raise IndexError
      | Some e =>
        match search_digits_after "tcp:" (fwd_local e) with
        | None => raise IndexError
        | Some port => ret (Some port)
        end
      end
    end.

(** The body of the loop of [getMaxXY], for the line [i]. *)
Definition max_xy_step (acc : option Z * option Z) (i : string)
  : option Z * option Z :=
  let '(max_x, max_y) := acc in
  let max_x :=
    if contains "0035" i then
      match search_digits_after "max " i with
      | Some n => Some n
      | None => max_x
      end
    else max_x in
  let max_y :=
    if contains "0036" i then
      match search_digits_after "max " i with
      | Some n => Some n
      | None => max_y
      end
    else max_y in
  (max_x, max_y).

(** [getMaxXY]. *)
Definition getMaxXY (self : ADB) : M (option Z * option Z) :=
  out <- shell self (CmdStr "getevent -p") ;;
  ret (fold_left max_xy_step (split_on "010" out) (None, None)).

(** [getDisplayOrientation]. *)
Definition getDisplayOrientation (self : ADB) : M Z :=
  output <- shell self (CmdStr "dumpsys SurfaceFlinger") ;;
  match search_digits_after "orientation=" output with
  | Some n => ret n
  | None =>
    output <- shell self (CmdStr "dumpsys input") ;;
    match search_spaced_digits_after "SurfaceOrientation:" output with
    | Some n => ret n
    | None => ret 0%Z
    end
  end.

(** [_Device.get_display_info] on its own probes for the orientation and
    the digitizer; [getPhysicalDisplayInfo] stays abstract. *)
Definition device_display_info (self : ADB)
    (getPhysicalDisplayInfo : M (gmap string pyval))
  : M (gmap string pyval) :=
  get_display_info getPhysicalDisplayInfo (getDisplayOrientation self)
                   (getMaxXY self).

(** The comprehension of [list_app], for the lines left. *)
Fixpoint package_names (packages : list string) : result (list string) :=
  match packages with
  | [] => Ok []
  | p :: rest =>
    if is_empty p then package_names rest
    else match split_on ":" p with
         | _ :: name :: _ =>
           match package_names rest with
           | Ok names => Ok (name :: names)
           | Err e => Err e
           end
         | _ => Err IndexError
         end
  end.

(** [list_app]. *)
Definition list_app (self : ADB) (third_only : bool) : M (list string) :=
  output <- shell self (CmdList (["pm"; "list"; "packages"]
                                 ++ (if third_only then ["-3"] else []))) ;;
  match package_names (splitlines output) with
  | Ok names => ret names
  | Err e => raise e
  end.

End Methods.

End Device.

(** ** Notions used to state the properties *)

Module Specs.
Import Minicap Bridge.

(** The little-endian value of four bytes. *)
Definition le32 (l0 l1 l2 l3 : byte) : Z :=
  byte_val l0 + byte_val l1 * 2 ^ 8 + byte_val l2 * 2 ^ 16
  + byte_val l3 * 2 ^ 24.

(** A banner whose sizes and orientation are still 0. *)
Definition sizes_unset (bn : banner_t) : Prop :=
  banner_realWidth bn = 0 /\ banner_realHeight bn = 0
  /\ banner_virtualWidth bn = 0 /\ banner_virtualHeight bn = 0
  /\ banner_orientation bn = 0.

(** The test of [_local_in_forwards] on one entry. *)
Definition entry_matches (local remote : option string) (e : fwd) : Prop :=
  (truthy local = true /\ Some (fwd_local e) = local)
  \/ (truthy remote = true /\ Some (fwd_remote e) = remote).

(** A string that does not go on with a digit. *)
Definition digit_free_start (s : string) : Prop :=
  match s with
  | EmptyString => True
  | String c _ => PyStr.digit_val c = None
  end.

Definition is_digit (c : ascii) : bool :=
  match PyStr.digit_val c with Some _ => true | None => false end.

End Specs.

(** ** Further scenarios *)

Module Cases.
Import Minicap PyStr Bridge Sim.
Open Scope string_scope.

(** A JPEG frame [FF D8 FF D9 00] whose first byte arrives with the
    banner; the second chunk carries one more byte after the frame. *)
Definition split_jpeg_frame : list (list byte) :=
  [(banner_1920x1080 ++ [x05; x00; x00; x00; xff])%list;
   [xd8; xff; xd9; x00; x01]].

(** The same frame, received in one chunk together with the banner. *)
Definition whole_jpeg_frame : list (list byte) :=
  [(banner_1920x1080
    ++ [x05; x00; x00; x00; xff; xd8; xff; xd9; x00])%list].

(** [bytes.decode('ascii')]. *)
Definition ascii_only (bs : list byte) : option string :=
  if forallb (fun b => (Byte.to_N b <? 128)%N) bs
  then Some (string_of_list_byte bs) else None.

(** A host on which every child process ends in the same way, and whose
    encodings are ASCII. *)
Definition replay_host : Host :=
  {| world := proc_result;
     communicate := fun _ _ w => (w, w);
     decode_fs := ascii_only;
     decode_sys_stdout := ascii_only;
     decode_shell := ascii_only;
     py_repr := string_of_list_byte |}.

Definition replay (r : proc_result) : @state replay_host :=
  @mkState replay_host r [].

(** A device reached over TCP. *)
Definition remote_device : ADB := device "10.0.0.2:5555" 26.

(** The agent's display information with a size. *)
Definition sized_info : gmap string pyval :=
  <["rotation" := VInt 90]>
    (<["width" := VInt 1080]> (<["height" := VInt 1920]> ∅)).

(** The output of [getevent -p] for a digitizer. *)
Definition getevent_output : string :=
  "  ABS (0003): 0035  : value 0, min 0, max 1079, fuzz 0"
  ++ newline
  ++ "                0036  : value 0, min 0, max 1919, fuzz 0"
  ++ newline.

End Cases.

(** * Properties *)

(** ** The capture stream *)

Module MinicapFacts.
Import Minicap.

Lemma byte_val_range (b : byte) : 0 <= byte_val b < 256.
Proof.
  unfold byte_val. pose proof (Byte.to_N_bounded b) as Hb. lia.
Qed.

Lemma byte_val_inj (a b : byte) : byte_val a = byte_val b -> a = b.
Proof.
  unfold byte_val. intros Hab.
  assert (Hn : Byte.to_N a = Byte.to_N b) by lia.
  pose proof (Byte.of_to_N a) as Ha. pose proof (Byte.of_to_N b) as Hb'.
  rewrite Hn in Ha. congruence.
Qed.

Section Frames.
Context `{Cv2}.
Variables width height : Z.

(** What a finished frame leads to: the frame is stored in [frameBody],
    and only a frame with the marker gets past [exit()]. *)
Lemma finish_frame_spec st frame :
  match finish_frame width height st frame with
  | ChunkDone _ => False
  | ChunkReturn _ st' =>
    frameBody st' = PyBytes frame /\ starts_with_soi frame
  | ChunkRaise e st' =>
    frameBody st' = PyBytes frame
    /\ (forall b0 b1 tl, frame = b0 :: b1 :: tl -> (b0, b1) <> (xff, xd8) ->
        e = SystemExit)
  end.
Proof.
  unfold finish_frame.
  destruct frame as [|b0 [|b1 tl]]; simpl.
  - split; [reflexivity | intros; discriminate].
  - destruct (byte_val b0 =? 255); simpl;
      (split; [reflexivity | intros; discriminate]).
  - destruct (byte_val b0 =? 255) eqn:E0; simpl.
    + destruct (byte_val b1 =? 216) eqn:E1; simpl.
      * apply Z.eqb_eq in E0, E1.
        assert (b0 = xff) by (apply byte_val_inj; exact E0).
        assert (b1 = xd8) by (apply byte_val_inj; exact E1).
        subst b0 b1.
        destruct (imdecode _); simpl.
        -- split; [reflexivity | eexists; reflexivity].
        -- split; [reflexivity|].
           intros ? ? ? [= <- <- <-] Hne. congruence.
      * split; [reflexivity | intros; reflexivity].
    + split; [reflexivity | intros; reflexivity].
Qed.

(** The same for a whole chunk: a pass that ends the call either returns
    a frame with the marker, or raises; it raises [SystemExit] whenever
    the frame it has stored has two first bytes other than the marker. *)
Lemma read_chunk_spec rest : forall st,
  match read_chunk width height st rest with
  | ChunkDone _ => True
  | ChunkReturn _ st' =>
    exists frame, frameBody st' = PyBytes frame /\ starts_with_soi frame
  | ChunkRaise e st' =>
    forall b0 b1 tl, frameBody st' = PyBytes (b0 :: b1 :: tl) ->
                     (b0, b1) <> (xff, xd8) -> e = SystemExit
  end.
Proof.
  induction rest as [|b rest IH]; intros st; simpl; [exact I|].
  destruct (readBannerBytes st <? bannerLength st); [apply IH|].
  destruct (readFrameBytes st <? 4); [apply IH|].
  unfold read_body.
  destruct (Z.of_nat _ >=? _).
  - destruct (frameBody st) as [s|fb] eqn:Efb; simpl.
    + intros ? ? ? Hfb. rewrite Efb in Hfb. discriminate.
    + pose proof (finish_frame_spec st (fb ++ firstn
        (Z.to_nat (frameBodyLengthRemaining st)) (b :: rest))) as Hf.
      destruct (finish_frame _ _ _ _) as [?|img st'|e st']; [easy| |].
      * destruct Hf as [Hb Hs]. eauto.
      * destruct Hf as [Hb Hs]. intros b0 b1 tl Hb'.
        rewrite Hb in Hb'. injection Hb' as Hb'. eauto.
  - destruct (frameBody st) as [[|c s]|fb] eqn:Efb; simpl; try exact I.
    intros ? ? ? Hfb. rewrite Efb in Hfb. discriminate.
Qed.

Lemma recv_loop_spec chunks : forall st,
  let r := recv_loop width height st chunks in
  match cap_outcome r with
  | Waiting => cap_socket_closed r = false
  | Returned _ =>
    cap_socket_closed r = true
    /\ exists frame, frameBody (cap_final r) = PyBytes frame
                     /\ starts_with_soi frame
  | Raised e =>
    cap_socket_closed r = false
    /\ forall b0 b1 tl, frameBody (cap_final r) = PyBytes (b0 :: b1 :: tl) ->
                        (b0, b1) <> (xff, xd8) -> e = SystemExit
  end.
Proof.
  induction chunks as [|chunk more IH]; intros st; simpl; [reflexivity|].
  destruct (length chunk =? 0)%nat; [apply IH|].
  pose proof (read_chunk_spec chunk st) as Hc.
  destruct (read_chunk _ _ _ _) as [st'|img st'|e st']; simpl.
  - apply IH.
  - split; [reflexivity | exact Hc].
  - split; [reflexivity | exact Hc].
Qed.

(** Every frame [screencap] returns starts with the JPEG marker, and the
    socket is closed on that path. *)
Lemma screencap_returns_jpeg chunks img :
  cap_outcome (screencap width height chunks) = Returned img ->
  cap_socket_closed (screencap width height chunks) = true
  /\ exists frame,
       frameBody (cap_final (screencap width height chunks)) = PyBytes frame
       /\ starts_with_soi frame.
Proof.
  intros Hr. pose proof (recv_loop_spec chunks cap_init) as Hs.
  unfold screencap in *. simpl in Hs. rewrite Hr in Hs. exact Hs.
Qed.

(** A frame body that is complete within the first chunk that carries
    body bytes is added to the [str] [frameBody]: the call raises
    [TypeError] whatever the frame starts with. *)
Lemma read_body_first_chunk st rest :
  frameBody st = PyStr "" ->
  frameBodyLengthRemaining st <= Z.of_nat (length rest) ->
  read_body width height st rest = ChunkRaise TypeError st.
Proof.
  intros Hfb Hlen. unfold read_body.
  destruct (Z.of_nat _ >=? _) eqn:E; [|lia].
  rewrite Hfb. reflexivity.
Qed.


End Frames.



(** C2: on the banner of the scenario the parser fills [version],
    [length] and [quirks] only; the sizes and the orientation keep their
    initial value 0 (the specification expects 1920, 1080 and 1), and [pid]
    holds the last of its four bytes. *)
Theorem screencap_banner_fields `{Cv2} (width height : Z) :
  let r := screencap width height [banner_1920x1080] in
  cap_outcome r = Waiting
  /\ readBannerBytes (cap_final r) = 24
  /\ banner (cap_final r) = mkBanner 1 24 0 0 0 0 0 0 0.
Proof. vm_compute. repeat split. Qed.

End MinicapFacts.

(** ** The bridge client *)

Module BridgeFacts.
Import PyStr Bridge.
Open Scope string_scope.
Open Scope list_scope.
Open Scope Z_scope.

Section Cmd.
Context `{Host}.

Lemma start_cmd_spec self cmds devices s :
  start_cmd self cmds devices s
  = match argv_of self cmds devices with
    | Some argv => (Ok argv, mkState (st_world s) (st_trace s ++ [argv]))
    | None => (Err TypeError, s)
    end.
Proof.
  unfold start_cmd, argv_of.
  destruct devices; [|reflexivity].
  destruct (device_id self) as [[|c d]|]; reflexivity.
Qed.

(** C3 (amended): once the child has been started and has finished, and
    its output has been decoded, [cmd] raises [AdbError] carrying the
    standard output, the standard error and the command it was given when
    the return code is greater than 0 and [skip_error] is not set; it
    returns the standard output when the return code is 0 or negative, or
    when [skip_error] is set. *)
Theorem cmd_returncode self cmds devices u timeout skip_error s
    argv r w' (stdout stderr : out_t u) :
  argv_of self cmds devices = Some argv ->
  communicate argv (if timeout_set timeout then timeout else None)
              (st_world s) = (r, w') ->
  (timeout_set timeout = true -> proc_expired r = false) ->
  decoded u (proc_stdout r) = Some stdout ->
  decoded u (proc_stderr r) = Some stderr ->
  (proc_returncode r > 0 -> skip_error = false ->
   fst (cmd self cmds devices u timeout skip_error s)
   = Err (AdbError (to_pyout stdout) (to_pyout stderr) cmds))
  /\ (proc_returncode r <= 0 \/ skip_error = true ->
      fst (cmd self cmds devices u timeout skip_error s) = Ok stdout).
Proof.
  intros Hargv Hcomm Hexp Hout Herr.
  assert (Hrun : forall s1,
    st_world s1 = w' ->
    (stdout0 <- decode_out u (proc_stdout r) ;;
     stderr0 <- decode_out u (proc_stderr r) ;;
     if proc_returncode r >? 0 then
       if negb skip_error then
         raise (AdbError (to_pyout stdout0) (to_pyout stderr0) cmds)
       else ret stdout0
     else ret stdout0) s1
    = (if (proc_returncode r >? 0) && negb skip_error
       then Err (AdbError (to_pyout stdout) (to_pyout stderr) cmds)
       else Ok stdout, s1)).
  { intros s1 _. unfold bind, decode_out. rewrite Hout, Herr. simpl.
    destruct (proc_returncode r >? 0), skip_error; reflexivity. }
  assert (Hcmd : fst (cmd self cmds devices u timeout skip_error s)
                 = if (proc_returncode r >? 0) && negb skip_error
                   then Err (AdbError (to_pyout stdout) (to_pyout stderr) cmds)
                   else Ok stdout).
  { unfold cmd. unfold bind at 1. rewrite start_cmd_spec, Hargv.
    unfold bind at 1.
    destruct (timeout_set timeout) eqn:Et.
    - unfold bind at 1. unfold proc_communicate. simpl.
      rewrite Hcomm. rewrite (Hexp eq_refl). unfold ret at 1.
      rewrite Hrun by reflexivity. reflexivity.
    - unfold proc_communicate. simpl. rewrite Hcomm.
      rewrite Hrun by reflexivity. reflexivity. }
  rewrite Hcmd. split.
  - intros Hrc ->. assert (E : (proc_returncode r >? 0) = true) by lia.
    rewrite E. reflexivity.
  - intros [Hrc | ->].
    + assert (E : (proc_returncode r >? 0) = false) by lia.
      rewrite E. reflexivity.
    + rewrite andb_false_r. reflexivity.
Qed.


(** On a device of SDK level 25 or more, an [AdbError] of the bridge
    invocation is caught and replaced: [shell] executes
    [raise logger.error(...)], which raises [TypeError]. *)
Lemma shell_new_sdk_replaces_AdbError self c s o e k :
  25 <= _sdk_version self ->
  fst (raw_shell self c true false s) = Err (AdbError o e k) ->
  fst (shell self c s) = Err TypeError.
Proof.
  intros Hsdk Hraw. unfold shell.
  assert (E : (_sdk_version self <? 25) = false) by lia. rewrite E.
  unfold catch_AdbError.
  destruct (raw_shell self c true false s) as [[a|e'] s']; simpl in *.
  - discriminate.
  - injection Hraw as ->. reflexivity.
Qed.

(** Below SDK level 25 the return code is read from the marker; a code
    greater than 0 leads to the same [raise logger.error(...)]. *)
Lemma shell_old_sdk_marker self c s raw s' g n :
  _sdk_version self < 25 ->
  raw_shell self (CmdList (split_cmd c ++ [";"; "echo"; "---$?---"]))
            true false s = (Ok raw, s') ->
  match_marker (rstrip raw) = Some (g, n) ->
  shell self c s = (if n >? 0 then Err TypeError else Ok g, s').
Proof.
  intros Hsdk Hraw Hm. unfold shell.
  assert (E : (_sdk_version self <? 25) = true) by lia. rewrite E.
  unfold bind. rewrite Hraw, Hm.
  destruct (n >? 0); reflexivity.
Qed.

End Cmd.

Section DisplayInfoFacts.
Context `{Host}.




End DisplayInfoFacts.

(** *** Words and forward entries *)

Lemma split_nonempty s : Forall (fun w => w <> "") (split s).
Proof.
  induction s as [|c s IH]; simpl; [constructor|].
  destruct (is_space c); [exact IH|].
  destruct s as [|c' s']; [repeat constructor; discriminate|].
  destruct (is_space c'); [constructor; [discriminate | exact IH]|].
  destruct (split (String c' s')) as [|w ws].
  - repeat constructor; discriminate.
  - inversion IH; subst. constructor; [discriminate | assumption].
Qed.

Lemma forward_of_line_nonempty line e :
  forward_of_line line = Some e -> fwd_local e <> "" /\ fwd_remote e <> "".
Proof.
  unfold forward_of_line. destruct (is_empty (strip line)); [discriminate|].
  pose proof (split_nonempty (strip line)) as Hw.
  destruct (split (strip line)) as [|a [|b [|c [|? ?]]]]; try discriminate.
  intros [= <-]. simpl.
  inversion Hw as [|? ? _ Hw1]; subst. inversion Hw1 as [|? ? Hb Hw2]; subst.
  inversion Hw2 as [|? ? Hc _]; subst. split; assumption.
Qed.

(** The entries [get_forwards] builds have a non-empty local and a
    non-empty remote: they are words of a line. *)
Lemma parse_forwards_nonempty out e :
  In e (parse_forwards out) -> fwd_local e <> "" /\ fwd_remote e <> "".
Proof.
  unfold parse_forwards. intros Hin.
  apply list_elem_of_In in Hin. apply list_elem_of_omap in Hin.
  destruct Hin as (line & _ & Hl). exact (forward_of_line_nonempty _ _ Hl).
Qed.

(** [_local_in_forwards] on a list of such entries: it finds the first
    entry with the given local or the given remote, or none has either. *)
Lemma scan_forwards_spec local remote l : forall i,
  (forall e, In e l -> fwd_local e <> "" /\ fwd_remote e <> "") ->
  (exists k e, scan_forwards (Some local) (Some remote) i l = (true, Some k)
               /\ (i <= k)%nat /\ l !! (k - i)%nat = Some e
               /\ (fwd_local e = local \/ fwd_remote e = remote))
  \/ (scan_forwards (Some local) (Some remote) i l = (false, None)
      /\ Forall (no_match local remote) l).
Proof.
  induction l as [|v l IH]; intros i Hne; cbn [scan_forwards].
  - right. split; [reflexivity | constructor].
  - destruct (Hne v (or_introl eq_refl)) as [Hvl Hvr].
    destruct (truthy (Some local)
              && bool_decide (Some (fwd_local v) = Some local)) eqn:E1.
    { left. exists i, v. apply andb_true_iff in E1 as [_ E1].
      apply bool_decide_eq_true in E1. injection E1 as E1.
      rewrite Nat.sub_diag.
      split; [reflexivity|]. split; [lia|]. split; [reflexivity|].
      now left. }
    destruct (truthy (Some remote)
              && bool_decide (Some (fwd_remote v) = Some remote)) eqn:E2.
    { left. exists i, v. apply andb_true_iff in E2 as [_ E2].
      apply bool_decide_eq_true in E2. injection E2 as E2.
      rewrite Nat.sub_diag.
      split; [reflexivity|]. split; [lia|]. split; [reflexivity|].
      now right. }
    assert (Hl : fwd_local v <> local).
    { intros <-. destruct (fwd_local v); [congruence|].
      simpl in E1. rewrite bool_decide_eq_false in E1. congruence. }
    assert (Hr : fwd_remote v <> remote).
    { intros <-. destruct (fwd_remote v); [congruence|].
      simpl in E2. rewrite bool_decide_eq_false in E2. congruence. }
    destruct (IH (S i) (fun e He => Hne e (or_intror He)))
      as [(k & e & Hs & Hk & He & Hm)|[Hs Hf]].
    + left. exists k, e. rewrite Hs.
      split; [reflexivity|]. split; [lia|]. split; [|exact Hm].
      replace (k - i)%nat with (S (k - S i)) by lia. exact He.
    + right. rewrite Hs. split; [reflexivity|].
      constructor; [split; assumption | exact Hf].
Qed.

Section ForwardFacts.
Context `{Host}.
Variable self : ADB.

Lemma cmd_trace cmds devices u timeout skip_error s argv :
  argv_of self cmds devices = Some argv ->
  st_trace (snd (cmd self cmds devices u timeout skip_error s))
  = st_trace s ++ [argv].
Proof.
  intros Hargv. unfold cmd. unfold bind at 1.
  rewrite start_cmd_spec, Hargv.
  unfold bind, proc_communicate, decode_out, ret, raise.
  destruct (timeout_set timeout); simpl.
  - destruct (communicate argv timeout (st_world s)) as [r w].
    destruct (proc_expired r); [reflexivity|].
    destruct (decoded u (proc_stdout r)); [|reflexivity].
    destruct (decoded u (proc_stderr r)); [|reflexivity].
    destruct (proc_returncode r >? 0), skip_error; reflexivity.
  - destruct (communicate argv None (st_world s)) as [r w].
    destruct (decoded u (proc_stdout r)); [|reflexivity].
    destruct (decoded u (proc_stderr r)); [|reflexivity].
    destruct (proc_returncode r >? 0), skip_error; reflexivity.
Qed.



Lemma get_forwards_trace s :
  st_trace (snd (get_forwards self s)) = st_trace s ++ [list_argv self].
Proof.
  unfold get_forwards, bind.
  pose proof (cmd_trace (CmdList ["forward"; "--list"]) false true None true
                         s (list_argv self) eq_refl) as Ht.
  destruct (cmd self _ false true None true s) as [[out|e] s1]; exact Ht.
Qed.

Lemma get_forwards_parsed s l :
  fst (get_forwards self s) = Ok l -> exists out, l = parse_forwards out.
Proof.
  unfold get_forwards, bind.
  destruct (cmd self _ false true None true s) as [[out|e] s1]; simpl.
  - intros [= <-]. eauto.
  - discriminate.
Qed.

Lemma live_nonempty s l e :
  live self s = Ok l -> In e l -> fwd_local e <> "" /\ fwd_remote e <> "".
Proof.
  intros Hl Hin. apply get_forwards_parsed in Hl as [out ->].
  exact (parse_forwards_nonempty _ _ Hin).
Qed.

(** [forward], once the list has been read. *)
Lemma forward_run local remote no_rebind s l s1 :
  get_forwards self s = (Ok l, s1) ->
  forward self local remote no_rebind s
  = match scan_forwards (Some local) (Some remote) 0 l with
    | (false, _) =>
      match cmd self (CmdList (forward_cmds local remote no_rebind))
                true true None false s1 with
      | (Ok _, s2) => (Ok tt, s2)
      | (Err e, s2) => (Err e, s2)
      end
    | (true, index) =>
      match get_forwards self s1 with
      | (Ok l', s2) =>
        (match index with
         | None => Err TypeError
         | Some i => match l' !! i with
                     | Some _ => Ok tt
                     | None => Err IndexError
                     end
         end, s2)
      | (Err e, s2) => (Err e, s2)
      end
    end.
Proof.
  intros Hl. unfold forward, _local_in_forwards. unfold bind at 1 2.
  rewrite Hl. unfold ret at 1.
  destruct (scan_forwards _ _ 0 l) as [[|] index]; cbn [negb].
  - unfold bind. destruct (get_forwards self s1) as [[l'|e] s2];
      [|reflexivity].
    destruct index as [i|]; [|reflexivity].
    destruct (l' !! i); reflexivity.
  - unfold bind.
    destruct (cmd self _ true true None false s1) as [[out|e] s2];
      reflexivity.
Qed.


Lemma issued_since_app s s' new :
  st_trace s' = st_trace s ++ new -> issued_since s s' = new.
Proof.
  intros Ht. unfold issued_since. rewrite Ht. apply drop_app_length.
Qed.

(** What [forward] hands to the bridge: the list query, then either the
    forward command, when no entry has the local or the remote, or a
    second list query. *)
Lemma forward_issued local remote no_rebind s c d l s1 :
  device_id self = Some (String c d) ->
  get_forwards self s = (Ok l, s1) ->
  (Forall (no_match local remote) l
   /\ issued_since s (snd (forward self local remote no_rebind s))
      = [list_argv self;
         forward_argv self (String c d) local remote no_rebind])
  \/ (~ Forall (no_match local remote) l
      /\ issued_since s (snd (forward self local remote no_rebind s))
         = [list_argv self; list_argv self]).
Proof.
  intros Hdev Hl.
  assert (Hs1 : st_trace s1 = st_trace s ++ [list_argv self]).
  { pose proof (get_forwards_trace s) as Ht. rewrite Hl in Ht. exact Ht. }
  rewrite (forward_run _ _ _ _ _ _ Hl).
  destruct (scan_forwards_spec local remote l 0) as
    [(k & e & Hs & _ & He & Hm)|[Hs Hf]].
  { intros e He. apply (live_nonempty s l e); [|exact He].
    unfold live. rewrite Hl. reflexivity. }
  - right. split.
    + intros Hf. rewrite Nat.sub_0_r in He.
      apply list_elem_of_lookup_2 in He.
      rewrite Forall_forall in Hf. destruct (Hf e He) as [H1 H2].
      destruct Hm; contradiction.
    + rewrite Hs. apply issued_since_app.
      pose proof (get_forwards_trace s1) as Ht.
      destruct (get_forwards self s1) as [[l'|e'] s2]; simpl in *;
        rewrite Ht, Hs1, <- app_assoc; reflexivity.
  - left. split; [exact Hf|]. rewrite Hs. apply issued_since_app.
    pose proof (cmd_trace (CmdList (forward_cmds local remote no_rebind))
                  true true None false s1
                  (forward_argv self (String c d) local remote no_rebind))
      as Ht.
    unfold argv_of in Ht. rewrite Hdev in Ht. specialize (Ht eq_refl).
    destruct (cmd self _ true true None false s1) as [[out|e'] s2];
      simpl in *; rewrite Ht, Hs1, <- app_assoc; reflexivity.
Qed.

End ForwardFacts.

Section Idempotence.
Context `{Host}.
Variable self : ADB.


Section Stable.
Variables cl cr : string.
Context {FC : ForwardContract self cl cr}.

Lemma live_after_list s r s1 :
  get_forwards self s = (r, s1) -> live self s = r /\ live self s1 = r.
Proof.
  intros E. pose proof (list_stable s) as Hst. unfold live.
  rewrite E in *. simpl in *. split; [reflexivity | exact Hst].
Qed.

(** A call that finds the local or the remote in the list only queries
    the list, twice, and leaves it as it was. *)
Lemma forward_noop local remote no_rebind s c d l :
  device_id self = Some (String c d) ->
  live self s = Ok l ->
  ~ Forall (no_match local remote) l ->
  exists s2, forward self local remote no_rebind s = (Ok tt, s2)
             /\ issued_since s s2 = [list_argv self; list_argv self]
             /\ live self s2 = Ok l.
Proof.
  intros Hdev Hl Hnf.
  destruct (get_forwards self s) as [r s1] eqn:E.
  destruct (live_after_list _ _ _ E) as [Hr Hl1].
  rewrite Hl in Hr. subst r.
  destruct (forward_issued self local remote no_rebind s c d l s1 Hdev E)
    as [[Hf _]|[_ Hiss]]; [contradiction|].
  rewrite (forward_run self _ _ _ _ _ _ E) in *.
  destruct (scan_forwards_spec local remote l 0
              (fun e He => live_nonempty self s l e Hl He)) as
    [(k & e & Hs & _ & He & _)|[_ Hf]]; [|contradiction].
  rewrite Hs in *. rewrite Nat.sub_0_r in He.
  destruct (get_forwards self s1) as [r2 s2] eqn:E2.
  destruct (live_after_list _ _ _ E2) as [Hr2 Hl2].
  rewrite Hl1 in Hr2. subst r2. rewrite He in *.
  exists s2. split; [reflexivity|]. split; [exact Hiss | exact Hl2].
Qed.

End Stable.






End Idempotence.

Section Ports.
Context `{PortEnv}.

Lemma randint_range a b r : a <= b -> a <= randint a b r <= b.
Proof.
  intros Hab. unfold randint.
  pose proof (Z.mod_pos_bound (Z.of_N r) (b - a + 1)). lia.
Qed.

(** C7: a port returned by [get_available_forward_local] lies in
    [11111, 20000], and it is the port one of the attempts drew and bound
    successfully on the host of the bridge. *)
Theorem reserved_port_in_range self depth : forall i port,
  get_available_forward_local self depth i = Ok port ->
  11111 <= port <= 20000
  /\ exists k, (i <= k < i + depth)%nat
               /\ port = port_at k
               /\ bind_ok k (host self) port = true.
Proof.
  induction depth as [|depth IH]; intros i port; simpl; [discriminate|].
  destruct (bind_ok i (host self) (randint 11111 20000 (draw i))) eqn:Eb.
  - intros [= <-]. split; [apply randint_range; lia|].
    exists i. repeat split; [lia | lia | exact Eb].
  - intros Hrec. apply IH in Hrec as [Hr (k & Hk & Hp & Hb)].
    split; [exact Hr|]. exists k. repeat split; [lia | lia | easy | easy].
Qed.

(** C8 (amended): if the attempt number [k] is the first whose bind
    succeeds, and [k] is below the recursion depth the interpreter allows,
    then [get_available_forward_local] returns the port of that attempt,
    after [k] failed attempts. *)
Theorem reserve_returns_first_bindable self depth k : forall i,
  (k < depth)%nat ->
  (forall j, (j < k)%nat ->
             bind_ok (i + j) (host self) (port_at (i + j)) = false) ->
  bind_ok (i + k) (host self) (port_at (i + k)) = true ->
  get_available_forward_local self depth i = Ok (port_at (i + k)).
Proof.
  revert depth. induction k as [|k IH]; intros depth i Hk Hbusy Hfree.
  - destruct depth as [|depth]; [lia|]. simpl.
    rewrite Nat.add_0_r in Hfree. unfold port_at in Hfree.
    rewrite Hfree. rewrite Nat.add_0_r. reflexivity.
  - destruct depth as [|depth]; [lia|]. simpl.
    pose proof (Hbusy 0%nat ltac:(lia)) as H0.
    rewrite Nat.add_0_r in H0. unfold port_at in H0. rewrite H0.
    replace (i + S k)%nat with (S i + k)%nat in * by lia.
    apply IH; [lia| |exact Hfree].
    intros j Hj. replace (S i + j)%nat with (i + S j)%nat by lia.
    apply Hbusy. lia.
Qed.

(** When no attempt within the allowed depth binds, the recursion ends
    with [RecursionError]: no port is returned, whatever ports are free. *)
Lemma reserve_exhausts_depth self depth : forall i,
  (forall j, (j < depth)%nat ->
             bind_ok (i + j) (host self) (port_at (i + j)) = false) ->
  get_available_forward_local self depth i = Err RecursionError.
Proof.
  induction depth as [|depth IH]; intros i Hbusy; simpl; [reflexivity|].
  pose proof (Hbusy 0%nat ltac:(lia)) as H0.
  rewrite Nat.add_0_r in H0. unfold port_at in H0. rewrite H0.
  apply IH. intros j Hj. replace (S i + j)%nat with (i + S j)%nat by lia.
  apply Hbusy. lia.
Qed.

End Ports.

End BridgeFacts.

(** ** The simulated host satisfies the contract of the bridge *)

Module SimFacts.
Import PyStr Bridge Sim.
Open Scope string_scope.

#[local] Existing Instance sim_host.

Lemma append_cons c (a b : string) : String c a ++ b = String c (a ++ b).
Proof. reflexivity. Qed.

Lemma append_nil_l (b : string) : "" ++ b = b.
Proof. reflexivity. Qed.

Lemma append_assoc (a b c : string) : (a ++ b) ++ c = a ++ (b ++ c).
Proof.
  induction a as [|x a IH]; [reflexivity|].
  rewrite !append_cons, IH. reflexivity.
Qed.

Lemma append_nil_r (a : string) : a ++ "" = a.
Proof.
  induction a as [|x a IH]; [reflexivity|].
  rewrite append_cons, IH. reflexivity.
Qed.

(** *** Lines *)

Lemma lines_from_nonempty c s : lines_from false (String c s) <> [].
Proof.
  simpl. destruct (is_linebreak c); [discriminate|].
  destruct (lines_from false s); discriminate.
Qed.

(** Text that ends with a newline splits into lines independently of what
    follows it. *)
Lemma lines_from_app_newline a : forall skip b,
  lines_from skip (a ++ newline ++ b)
  = (lines_from skip (a ++ newline) ++ lines_from false b)%list.
Proof.
  induction a as [|c a IH]; intros skip b.
  - rewrite !append_nil_l. unfold newline. rewrite append_cons, append_nil_l.
    cbn [lines_from]. destruct skip; reflexivity.
  - rewrite !append_cons. cbn [lines_from].
    destruct (skip && is_lf c); [apply IH|].
    destruct (is_linebreak c); [rewrite IH; reflexivity|].
    rewrite IH.
    destruct a as [|c' a'].
    + reflexivity.
    + pose proof (lines_from_nonempty c' (a' ++ newline)) as Hne.
      rewrite append_cons.
      destruct (lines_from false (String c' (a' ++ newline)));
        [contradiction | reflexivity].
Qed.

Lemma linebreak_is_space c : is_linebreak c = true -> is_space c = true.
Proof.
  destruct c as [[|] [|] [|] [|] [|] [|] [|] [|]]; vm_compute;
    intros Hl; first [reflexivity | discriminate].
Qed.

Lemma no_space_no_linebreak s : no_space s = true -> no_linebreak s = true.
Proof.
  induction s as [|c s IH]; simpl; [reflexivity|].
  intros Hs. apply andb_true_iff in Hs as [Hc Hs].
  rewrite (IH Hs), andb_true_r.
  destruct (is_linebreak c) eqn:E; [|reflexivity].
  apply linebreak_is_space in E. rewrite E in Hc. discriminate.
Qed.

Lemma no_linebreak_app a b :
  no_linebreak (a ++ b) = no_linebreak a && no_linebreak b.
Proof.
  induction a as [|c a IH]; [reflexivity|].
  rewrite append_cons. simpl. rewrite IH, andb_assoc. reflexivity.
Qed.

Lemma lines_of_line line :
  no_linebreak line = true -> splitlines (line ++ newline) = [line].
Proof.
  unfold splitlines. induction line as [|c line IH]; [reflexivity|].
  rewrite append_cons. simpl.
  intros Hl. apply andb_true_iff in Hl as [Hc Hl].
  apply negb_true_iff in Hc. rewrite Hc, (IH Hl). reflexivity.
Qed.

(** *** Words *)

Lemma rstrip_no_space w : no_space w = true -> rstrip w = w.
Proof.
  induction w as [|c w IH]; simpl; [reflexivity|].
  intros Hs. apply andb_true_iff in Hs as [Hc Hs].
  apply negb_true_iff in Hc. rewrite (IH Hs), Hc.
  destruct w; reflexivity.
Qed.

Lemma rstrip_app_word a w : is_word w = true -> rstrip (a ++ w) = a ++ w.
Proof.
  intros Hw. apply andb_true_iff in Hw as [Hne Hs].
  induction a as [|c a IH].
  - apply rstrip_no_space. exact Hs.
  - rewrite append_cons. simpl. rewrite IH.
    destruct (a ++ w) eqn:E; [|reflexivity].
    destruct a; [rewrite append_nil_l in E; subst w|]; discriminate.
Qed.

Lemma lstrip_word_app w t : is_word w = true -> lstrip (w ++ t) = w ++ t.
Proof.
  intros Hw. apply andb_true_iff in Hw as [Hne Hs].
  destruct w as [|c w]; [discriminate|]. simpl in Hs.
  apply andb_true_iff in Hs as [Hc _]. apply negb_true_iff in Hc.
  rewrite append_cons. simpl. rewrite Hc. reflexivity.
Qed.

Lemma split_word w : is_word w = true -> split w = [w].
Proof.
  intros Hw. apply andb_true_iff in Hw as [Hne Hs].
  induction w as [|c w IH]; [discriminate|].
  simpl in Hs. apply andb_true_iff in Hs as [Hc Hs].
  apply negb_true_iff in Hc. cbn [split]. rewrite Hc.
  destruct w as [|c' w']; [reflexivity|].
  pose proof Hs as Hs'. simpl in Hs'.
  apply andb_true_iff in Hs' as [Hc' _]. apply negb_true_iff in Hc'.
  rewrite Hc'. rewrite (IH eq_refl Hs). reflexivity.
Qed.

Lemma split_word_space w t :
  is_word w = true -> split (w ++ " " ++ t) = w :: split t.
Proof.
  intros Hw. apply andb_true_iff in Hw as [Hne Hs].
  induction w as [|c w IH]; [discriminate|].
  simpl in Hs. apply andb_true_iff in Hs as [Hc Hs].
  apply negb_true_iff in Hc.
  rewrite append_cons. cbn [split]. rewrite Hc.
  destruct w as [|c' w'].
  - reflexivity.
  - pose proof Hs as Hs'. simpl in Hs'.
    apply andb_true_iff in Hs' as [Hc' _]. apply negb_true_iff in Hc'.
    rewrite append_cons, Hc', <- append_cons.
    rewrite (IH eq_refl Hs). reflexivity.
Qed.

(** *** Rows *)

(** The line of a row is read back as its local and its remote. *)
Lemma parse_render_row serial l r :
  is_word serial = true -> is_word l = true -> is_word r = true ->
  parse_forwards (render_row (mkRow serial l r)) = [mkFwd l r].
Proof.
  intros Hs Hl Hr. unfold parse_forwards, render_row. simpl.
  set (line := serial ++ " " ++ l ++ " " ++ r).
  replace (serial ++ " " ++ l ++ " " ++ r ++ newline)
    with (line ++ newline).
  2:{ subst line. rewrite !append_assoc. reflexivity. }
  assert (Hnl : no_linebreak line = true).
  { subst line. rewrite !no_linebreak_app.
    apply andb_true_iff in Hs as [_ Hs], Hl as [_ Hl], Hr as [_ Hr].
    rewrite (no_space_no_linebreak _ Hs), (no_space_no_linebreak _ Hl),
      (no_space_no_linebreak _ Hr). reflexivity. }
  rewrite (lines_of_line _ Hnl). simpl.
  assert (Hstrip : strip line = line).
  { unfold strip. subst line. rewrite (lstrip_word_app _ _ Hs).
    replace (serial ++ " " ++ l ++ " " ++ r)
      with ((serial ++ " " ++ l ++ " ") ++ r)
      by (rewrite !append_assoc; reflexivity).
    apply rstrip_app_word. exact Hr. }
  unfold forward_of_line. rewrite Hstrip.
  assert (Hne : is_empty line = false).
  { subst line. apply andb_true_iff in Hs as [Hs _].
    destruct serial; [discriminate | reflexivity]. }
  rewrite Hne. subst line.
  rewrite (split_word_space _ _ Hs), (split_word_space _ _ Hl),
    (split_word _ Hr).
  reflexivity.
Qed.

Lemma render_app rows rows' : render (rows ++ rows') = render rows ++ render rows'.
Proof.
  induction rows as [|r rows IH]; [reflexivity|].
  simpl. rewrite IH, append_assoc. reflexivity.
Qed.

Lemma render_terminated rows :
  render rows = "" \/ exists a, render rows = a ++ newline.
Proof.
  induction rows as [|r rows IH]; [now left|]. right. simpl.
  destruct IH as [->|[a ->]].
  - exists (row_serial r ++ " " ++ row_local r ++ " " ++ row_remote r).
    unfold render_row. rewrite append_nil_r, !append_assoc. reflexivity.
  - exists (render_row r ++ a). rewrite append_assoc. reflexivity.
Qed.

Lemma parse_render_app rows t :
  parse_forwards (render rows ++ t)
  = (parse_forwards (render rows) ++ parse_forwards t)%list.
Proof.
  unfold parse_forwards, splitlines.
  destruct (render_terminated rows) as [->|[a ->]]; [reflexivity|].
  rewrite append_assoc, lines_from_app_newline. apply omap_app.
Qed.

(** *** The client on the simulated host *)

Lemma sim_get_forwards serial sdk (s : @state sim_host) :
  get_forwards (device serial sdk) s
  = (Ok (parse_forwards (render (sim_forwards (st_world s)))),
     @mkState sim_host (st_world s)
              (st_trace s ++ [["adb"; "forward"; "--list"]])).
Proof.
  unfold get_forwards, cmd, bind, start_cmd, popen, proc_communicate,
    decode_out, decoded, ret. simpl.
  unfold latin1. rewrite string_of_list_byte_of_string. reflexivity.
Qed.

Lemma sim_forward_cmd serial sdk l r (s : @state sim_host) out s' :
  cmd (device serial sdk) (CmdList (forward_cmds l r true))
      true true None false s = (Ok out, s') ->
  is_word serial = true /\ is_word l = true /\ is_word r = true
  /\ st_world s'
     = mkSim (sim_forwards (st_world s) ++ [mkRow serial l r])
             (sim_script (st_world s)).
Proof.
  unfold cmd, bind, start_cmd, popen, proc_communicate, decode_out,
    decoded, ret, raise. simpl.
  destruct serial as [|c d]; [discriminate|]. simpl.
  destruct (is_word (String c d) && is_word l && is_word r) eqn:Ew.
  - destruct (local_bound l (sim_forwards (st_world s))); simpl.
    + discriminate.
    + intros [= <- <-]. simpl.
      apply andb_true_iff in Ew as [Ew Hr].
      apply andb_true_iff in Ew as [Hs Hl]. auto.
  - simpl. discriminate.
Qed.

(** The simulated bridge honours the contract for every device handle on
    the default endpoint and every pair. *)
Lemma sim_contract serial sdk l r :
  ForwardContract (device serial sdk) l r.
Proof.
  split.
  - intros s. rewrite !sim_get_forwards. reflexivity.
  - intros s out s' l0 Hcmd Hlive.
    apply sim_forward_cmd in Hcmd as (Hs & Hl & Hr & Hw).
    rewrite sim_get_forwards in *. simpl in *. injection Hlive as <-.
    rewrite Hw. simpl. eexists. split; [reflexivity|].
    rewrite render_app, parse_render_app. simpl render.
    rewrite append_nil_r, (parse_render_row _ _ _ Hs Hl Hr).
    apply Permutation_sym, Permutation_cons_append.
Qed.

End SimFacts.

(** ** Scenarios on the simulated host *)

Module Scenarios.
Import PyStr Bridge Sim BridgeFacts SimFacts.
Open Scope string_scope.
Open Scope list_scope.
Open Scope Z_scope.

#[local] Existing Instance sim_host.

(** C3 (as stated) fails: a child killed by signal 9 has the return code
    -9, which is different from 0, and [cmd] returns its standard output
    without raising. *)
Lemma cmd_negative_returncode_counterexample :
  proc_returncode (fst (communicate ["adb"; "devices"] None
                                    (st_world (silent (-9))))) <> 0
  /\ fst (cmd (emulator 26) (CmdStr "devices") false true None false
              (silent (-9))) = Ok "".
Proof. split; [vm_compute; discriminate | vm_compute; reflexivity]. Qed.

Lemma cmd_returncode_witness :
  fst (cmd (emulator 26) (CmdStr "devices") false true None false
           (printing "" "error: no bridge" 1))
  = Err (AdbError (OStr "") (OStr "error: no bridge") (CmdStr "devices")).
Proof.
  refine (proj1 (@cmd_returncode sim_host (emulator 26) (CmdStr "devices")
                   false true None false (printing "" "error: no bridge" 1)
                   ["adb"; "devices"]
                   (mkProc [] (bytes_of "error: no bridge") 1 false)
                   (st_world (printing "" "error: no bridge" 1))
                   "" "error: no bridge" _ _ _ _ _) _ _).
  - reflexivity.
  - reflexivity.
  - intros Ht. discriminate Ht.
  - reflexivity.
  - vm_compute. reflexivity.
  - reflexivity.
  - reflexivity.
Defined.

(** C5: on SDK level 26 a failing bridge invocation makes [raw_shell]
    raise [AdbError], which [shell] replaces by [TypeError]; on SDK level
    22 the marker [---1---] makes [shell] raise [TypeError] too, an error
    that carries no return code. The specification expects [AdbError] and
    an error carrying the return code 1. *)
Theorem shell_false_raises_TypeError :
  (exists o e c,
     fst (raw_shell (emulator 26) (CmdStr "false") true false (silent 1))
     = Err (AdbError o e c))
  /\ fst (shell (emulator 26) (CmdStr "false") (silent 1)) = Err TypeError
  /\ st_trace (snd (shell (emulator 26) (CmdStr "false") (silent 1)))
     = [["adb"; "-s"; "emulator-5554"; "shell"; "false"]]
  /\ st_trace (snd (shell (emulator 22) (CmdStr "false") marker_1))
     = [["adb"; "-s"; "emulator-5554"; "shell"; "false";
         ";"; "echo"; "---$?---"]]
  /\ match_marker (rstrip ("---1---" ++ String "013" newline)%string)
     = Some (""%string, 1)
  /\ fst (shell (emulator 22) (CmdStr "false") marker_1) = Err TypeError.
Proof.
  split; [do 3 eexists; vm_compute; reflexivity|].
  repeat split; vm_compute; reflexivity.
Qed.


(** An absent device: the bridge exits with 1 and names the device. *)
Example get_status_not_found :
  fst (get_status (emulator 26)
                  (printing "" "error: device 'emulator-5554' not found" 1))
  = Ok None.
Proof. vm_compute. reflexivity. Qed.

Lemma reserved_port_in_range_witness :
  11111 <= 11112 <= 20000
  /\ exists k, (0 <= k < 0 + 1000)%nat
               /\ 11112 = @port_at (scripted_ports [0; 0; 1]%N 1%N [11111]) k
               /\ @bind_ok (scripted_ports [0; 0; 1]%N 1%N [11111]) k
                           (host (emulator 26)) 11112 = true.
Proof.
  apply (@reserved_port_in_range (scripted_ports [0; 0; 1]%N 1%N [11111])
           (emulator 26) 1000 0%nat 11112).
  vm_compute. reflexivity.
Defined.

(** C8 (as stated) fails: port 11112 can be bound at every attempt, but
    every draw gives the busy port 11111; no port is returned, whatever
    the depth the interpreter allows (1000 by default), and the call ends
    with [RecursionError]. *)
Lemma reserve_never_returns_counterexample :
  (forall i, @bind_ok (scripted_ports [] 0%N [11111]) i
                      (host (emulator 26)) 11112 = true)
  /\ (forall depth,
        @get_available_forward_local (scripted_ports [] 0%N [11111])
          (emulator 26) depth 0 = Err RecursionError).
Proof.
  split; [reflexivity|].
  intros depth.
  apply (@reserve_exhausts_depth (scripted_ports [] 0%N [11111])).
  intros j _. unfold port_at. simpl. destruct j; reflexivity.
Qed.

Lemma reserve_returns_first_bindable_witness :
  @get_available_forward_local (scripted_ports [0; 0; 1]%N 1%N [11111])
    (emulator 26) 1000 0 = Ok 11112.
Proof.
  refine (@reserve_returns_first_bindable
            (scripted_ports [0; 0; 1]%N 1%N [11111])
            (emulator 26) 1000 2 0%nat _ _ _).
  - lia.
  - intros j Hj. destruct j as [|[|j]]; [reflexivity | reflexivity | lia].
  - reflexivity.
Defined.






End Scenarios.

(** ** More on the capture stream *)

Module CaptureExtras.
Import Minicap MinicapFacts Specs.

Section Stream.
Context `{Cv2}.
Variables width height : Z.

(** The banner bytes after the second one only move the counter. *)
Lemma read_banner_tail tl : forall st rest,
  2 <= readBannerBytes st ->
  readBannerBytes st + Z.of_nat (length tl) = Z.max 2 (bannerLength st) ->
  exists bn,
    read_chunk width height st (tl ++ rest)
    = read_chunk width height
        (mkCap (Z.max 2 (bannerLength st)) (bannerLength st)
               (readFrameBytes st) (frameBodyLengthRemaining st)
               (frameBody st) bn) rest.
Proof.
  induction tl as [|b tl IH]; intros st rest Hge Hlen.
  - simpl in Hlen. rewrite Z.add_0_r in Hlen. exists (banner st).
    simpl. rewrite <- Hlen. destruct st; reflexivity.
  - cbn [length] in Hlen. rewrite Nat2Z.inj_succ in Hlen.
    cbn [app read_chunk].
    assert (Hlt : (readBannerBytes st <? bannerLength st) = true) by lia.
    rewrite Hlt.
    assert (Hb : bannerLength (read_banner_byte st b) = bannerLength st
                 /\ readBannerBytes (read_banner_byte st b)
                    = readBannerBytes st + 1
                 /\ readFrameBytes (read_banner_byte st b) = readFrameBytes st
                 /\ frameBodyLengthRemaining (read_banner_byte st b)
                    = frameBodyLengthRemaining st
                 /\ frameBody (read_banner_byte st b) = frameBody st).
    { unfold read_banner_byte.
      assert (E0 : (readBannerBytes st =? 0) = false) by lia.
      assert (E1 : (readBannerBytes st =? 1) = false) by lia.
      rewrite E0, E1.
      destruct ((2 <=? readBannerBytes st) && (readBannerBytes st <=? 5));
        [repeat split|].
      destruct (readBannerBytes st =? 23); repeat split. }
    destruct Hb as (Hb1 & Hb2 & Hb3 & Hb4 & Hb5).
    destruct (IH (read_banner_byte st b) rest) as [bn Hbn]; [lia | lia |].
    exists bn. rewrite Hbn, Hb1, Hb3, Hb4, Hb5. reflexivity.
Qed.

Lemma read_length_step st b rest :
  bannerLength st <= readBannerBytes st ->
  readFrameBytes st < 4 ->
  read_chunk width height st (b :: rest)
  = read_chunk width height (read_len_byte st b) rest.
Proof.
  intros Hb Hf. cbn [read_chunk].
  assert (E1 : (readBannerBytes st <? bannerLength st) = false) by lia.
  assert (E2 : (readFrameBytes st <? 4) = true) by lia.
  rewrite E1, E2. reflexivity.
Qed.

(** The four length bytes are read as a little-endian number. *)
Lemma read_length st l0 l1 l2 l3 rest :
  bannerLength st <= readBannerBytes st ->
  readFrameBytes st = 0 ->
  frameBodyLengthRemaining st = 0 ->
  read_chunk width height st (l0 :: l1 :: l2 :: l3 :: rest)
  = read_chunk width height
      (mkCap (readBannerBytes st) (bannerLength st) 4 (le32 l0 l1 l2 l3)
             (frameBody st) (banner st)) rest.
Proof.
  intros Hb Hf Hr. destruct st as [rbb bl rfb rem fb bn].
  simpl in Hb, Hf, Hr. subst rfb rem.
  rewrite read_length_step by (simpl; lia).
  rewrite read_length_step by (simpl; lia).
  rewrite read_length_step by (simpl; lia).
  rewrite read_length_step by (simpl; lia).
  unfold read_len_byte. simpl.
  f_equal. f_equal. unfold le32.
  rewrite !Z.shiftl_mul_pow2 by lia.
  change (2 ^ 0) with 1. lia.
Qed.

(** A banner and the length of the first frame, in one chunk. *)
Lemma read_header b0 b1 tl l0 l1 l2 l3 rest :
  2 + Z.of_nat (length tl) = Z.max 2 (byte_val b1) ->
  exists bn,
    read_chunk width height cap_init
               ((b0 :: b1 :: tl) ++ [l0; l1; l2; l3] ++ rest)
    = read_chunk width height
        (mkCap (Z.max 2 (byte_val b1)) (byte_val b1) 4 (le32 l0 l1 l2 l3)
               (PyStr "") bn) rest.
Proof.
  intros Hlen.
  set (st2 := read_banner_byte (read_banner_byte cap_init b0) b1).
  assert (Hst2 : read_chunk width height cap_init
                   ((b0 :: b1 :: tl) ++ [l0; l1; l2; l3] ++ rest)
                 = read_chunk width height st2
                              (tl ++ [l0; l1; l2; l3] ++ rest)).
  { reflexivity. }
  assert (Hf : readBannerBytes st2 = 2 /\ bannerLength st2 = byte_val b1
               /\ readFrameBytes st2 = 0
               /\ frameBodyLengthRemaining st2 = 0
               /\ frameBody st2 = PyStr "").
  { repeat split. }
  destruct Hf as (H1 & H2 & H3 & H4 & H5).
  destruct (read_banner_tail tl st2 ([l0; l1; l2; l3] ++ rest))
    as [bn Hbn]; [lia | lia |].
  rewrite Hst2, Hbn, H2, H3, H4, H5.
  exists bn. cbn [app]. rewrite read_length; [reflexivity | simpl; lia | reflexivity | reflexivity].
Qed.

(** X3: when the banner, the frame length and the whole frame body
    arrive in one chunk, [screencap] raises [TypeError], whatever the
    frame is, and leaves the socket open. *)
Theorem screencap_whole_frame_TypeError b0 b1 tl l0 l1 l2 l3 body more :
  2 + Z.of_nat (length tl) = Z.max 2 (byte_val b1) ->
  body <> [] ->
  le32 l0 l1 l2 l3 <= Z.of_nat (length body) ->
  cap_outcome (screencap width height
                 (((b0 :: b1 :: tl) ++ [l0; l1; l2; l3] ++ body) :: more))
  = Raised TypeError
  /\ cap_socket_closed (screencap width height
                 (((b0 :: b1 :: tl) ++ [l0; l1; l2; l3] ++ body) :: more))
     = false.
Proof.
  intros Hlen Hne Hle.
  destruct (read_header b0 b1 tl l0 l1 l2 l3 body Hlen) as [bn Hh].
  unfold screencap. cbn [recv_loop].
  change (length ((b0 :: b1 :: tl) ++ [l0; l1; l2; l3] ++ body) =? 0)%nat
    with false.
  cbn iota. rewrite Hh.
  destruct body as [|b body]; [contradiction|].
  cbn [read_chunk readBannerBytes bannerLength readFrameBytes].
  assert (Hlt : (Z.max 2 (byte_val b1) <? byte_val b1) = false) by lia.
  rewrite Hlt. change (4 <? 4) with false. cbn iota.
  rewrite read_body_first_chunk; [split; reflexivity | reflexivity |].
  exact Hle.
Qed.

(** X4: when the frame body spans two chunks and starts with the JPEG
    marker, [screencap] decodes the frame made of the announced number of
    bytes; it returns the resized image and closes the socket, or raises
    when the image library cannot decode the frame. What follows the frame
    in the second chunk, and every later chunk, is not read. *)
Theorem screencap_split_frame b0 b1 tl l0 l1 l2 l3 body1 body2 extra more t :
  2 + Z.of_nat (length tl) = Z.max 2 (byte_val b1) ->
  body1 <> [] -> body2 <> [] ->
  le32 l0 l1 l2 l3 = Z.of_nat (length body1 + length body2) ->
  body1 ++ body2 = xff :: xd8 :: t ->
  let r := screencap width height
             (((b0 :: b1 :: tl) ++ [l0; l1; l2; l3] ++ body1)
              :: (body2 ++ extra) :: more) in
  match imdecode (body1 ++ body2) with
  | Some img =>
    cap_outcome r = Returned (resize img width height)
    /\ cap_socket_closed r = true
  | None => cap_outcome r = Raised Cv2Error /\ cap_socket_closed r = false
  end.
Proof.
  intros Hlen Hne1 Hne2 Hle Hsoi r.
  assert (Hr : exists st',
            r = match imdecode (body1 ++ body2) with
                | Some img =>
                  mkCapResult (Returned (resize img width height)) true st'
                | None => mkCapResult (Raised Cv2Error) false st'
                end).
  2:{ destruct Hr as [st' ->].
      destruct (imdecode (body1 ++ body2)); split; reflexivity. }
  subst r.
  destruct (read_header b0 b1 tl l0 l1 l2 l3 body1 Hlen) as [bn Hh].
  unfold screencap. cbn [recv_loop].
  change (length ((b0 :: b1 :: tl) ++ [l0; l1; l2; l3] ++ body1) =? 0)%nat
    with false.
  cbn iota. rewrite Hh.
  assert (Hlt : (Z.max 2 (byte_val b1) <? byte_val b1) = false) by lia.
  assert (Hl2 : (0 < length body2)%nat) by (destruct body2; simpl; [contradiction | lia]).
  destruct body1 as [|a body1]; [contradiction|].
  cbn [read_chunk readBannerBytes bannerLength readFrameBytes].
  rewrite Hlt. change (4 <? 4) with false. cbn iota.
  unfold read_body at 1.
  cbn [frameBodyLengthRemaining frameBody buf_extend readBannerBytes
       bannerLength readFrameBytes banner].
  assert (E1 : (Z.of_nat (length (a :: body1)) >=? le32 l0 l1 l2 l3) = false).
  { rewrite Hle, Z.geb_leb. apply Z.leb_gt. lia. }
  rewrite E1. cbn [recv_loop].
  assert (Hc2 : (length (body2 ++ extra) =? 0)%nat = false).
  { rewrite length_app. apply Nat.eqb_neq. lia. }
  rewrite Hc2.
  destruct (body2 ++ extra) as [|c rest2] eqn:E2; [discriminate Hc2|].
  cbn [read_chunk readBannerBytes bannerLength readFrameBytes].
  rewrite Hlt.
  assert (E3 : (4 + Z.of_nat (length (a :: body1)) <? 4) = false) by lia.
  rewrite E3. unfold read_body.
  cbn [frameBodyLengthRemaining frameBody buf_add].
  assert (Hrem : le32 l0 l1 l2 l3 - Z.of_nat (length (a :: body1))
                 = Z.of_nat (length body2)) by (rewrite Hle; lia).
  rewrite Hrem.
  assert (E4 : (Z.of_nat (length (c :: rest2)) >=? Z.of_nat (length body2))
               = true).
  { rewrite <- E2, length_app, Z.geb_leb. apply Z.leb_le. lia. }
  rewrite E4, Nat2Z.id, <- E2.
  rewrite firstn_app, Nat.sub_diag, firstn_all. cbn [firstn].
  rewrite app_nil_r, Hsoi.
  unfold finish_frame.
  change (byte_val xff =? 255) with true.
  change (byte_val xd8 =? 216) with true. cbn [negb]. cbn iota.
  eexists. destruct (imdecode (xff :: xd8 :: t)); reflexivity.
Qed.

(** X1: [screencap] closes the socket exactly when it returns an
    image; it is left open when the call raises or still waits. *)
Theorem screencap_closes_iff_returns chunks :
  cap_socket_closed (screencap width height chunks) = true
  <-> exists img, cap_outcome (screencap width height chunks) = Returned img.
Proof.
  pose proof (recv_loop_spec width height chunks cap_init) as Hs.
  unfold screencap. simpl in Hs.
  destruct (cap_outcome _) as [img|e|].
  - destruct Hs as [Hc _]. split; [eauto | intros _; exact Hc].
  - destruct Hs as [Hc _]. rewrite Hc. split; [discriminate|].
    intros [img Hi]. discriminate.
  - rewrite Hs. split; [discriminate|]. intros [img Hi]. discriminate.
Qed.

(** X2: the frame behind every image [screencap] returns starts with
    the JPEG marker 0xFF, 0xD8. *)
Theorem screencap_returned_frame_is_jpeg chunks img :
  cap_outcome (screencap width height chunks) = Returned img ->
  exists tl,
    frameBody (cap_final (screencap width height chunks))
    = PyBytes (xff :: xd8 :: tl).
Proof.
  intros Hr.
  destruct (screencap_returns_jpeg width height chunks img Hr)
    as [_ (frame & Hf & tl & ->)].
  eauto.
Qed.

Lemma read_banner_byte_sizes st b :
  sizes_unset (banner st) -> sizes_unset (banner (read_banner_byte st b)).
Proof.
  unfold sizes_unset, read_banner_byte. intros (H1 & H2 & H3 & H4 & H5).
  destruct (readBannerBytes st =? 0); [simpl; auto|].
  destruct (readBannerBytes st =? 1); [simpl; auto|].
  destruct ((2 <=? readBannerBytes st) && (readBannerBytes st <=? 5));
    [simpl; auto|].
  destruct (readBannerBytes st =? 23); simpl; auto.
Qed.

Lemma read_chunk_sizes rest : forall st,
  sizes_unset (banner st) ->
  match read_chunk width height st rest with
  | ChunkDone st' | ChunkReturn _ st' | ChunkRaise _ st' =>
    sizes_unset (banner st')
  end.
Proof.
  induction rest as [|b rest IH]; intros st Hs; simpl; [exact Hs|].
  destruct (readBannerBytes st <? bannerLength st).
  { apply IH, read_banner_byte_sizes, Hs. }
  destruct (readFrameBytes st <? 4); [apply IH; exact Hs|].
  unfold read_body.
  destruct (Z.of_nat _ >=? _).
  - destruct (buf_add _ _) as [e|frame]; [exact Hs|].
    unfold finish_frame.
    destruct frame as [|f0 [|f1 ftl]]; simpl; try exact Hs.
    + destruct (byte_val f0 =? 255); exact Hs.
    + destruct (byte_val f0 =? 255); simpl; [|exact Hs].
      destruct (byte_val f1 =? 216); simpl; [|exact Hs].
      destruct (imdecode _); exact Hs.
  - destruct (buf_extend _ _); exact Hs.
Qed.

(** X5: whatever the socket delivers, [screencap] never stores a real
    size, a virtual size or an orientation in its banner: the five fields
    keep their initial value 0. *)
Theorem screencap_banner_sizes_unset chunks :
  sizes_unset (banner (cap_final (screencap width height chunks))).
Proof.
  unfold screencap.
  assert (Hgen : forall st, sizes_unset (banner st) ->
            sizes_unset (banner (cap_final
                                   (recv_loop width height st chunks)))).
  { induction chunks as [|chunk more IH]; intros st Hs; simpl; [exact Hs|].
    destruct (length chunk =? 0)%nat; [apply IH; exact Hs|].
    pose proof (read_chunk_sizes chunk st Hs) as Hc.
    destruct (read_chunk _ _ _ _); simpl; [apply IH|..]; exact Hc. }
  apply Hgen. repeat split.
Qed.

End Stream.

End CaptureExtras.

(** ** More on the display information of the capture agent *)

Module DisplayExtras.
Import Minicap.
Open Scope string_scope.



(** X7: when [wm size] printed a physical size, the dictionary
    [_Minicap.get_display_info] returns has that size as [width] and
    [height], keeps the size the agent reported as [physical_width] and
    [physical_height], and keeps the rotation of the agent. *)
Theorem minicap_display_info_sizes info w h sizes wm_dpi d :
  get_display_info info ((w, h) :: sizes) wm_dpi = inr d ->
  d !! "width" = Some (VInt w) /\ d !! "height" = Some (VInt h)
  /\ d !! "physical_width" = info !! "width"
  /\ d !! "physical_height" = info !! "height"
  /\ d !! "rotation" = info !! "rotation".
Proof.
  unfold get_display_info.
  destruct (info !! "rotation") as [v|] eqn:Ev; [|discriminate].
  destruct (py_truediv v 90) as [e|o]; [discriminate|].
  rewrite lookup_insert_ne by discriminate.
  destruct (info !! "width") as [w0|] eqn:Ew; [|discriminate].
  rewrite !lookup_insert_ne by discriminate.
  destruct (info !! "height") as [h0|] eqn:Eh; [|discriminate].
  intros Hd.
  assert (Hd' : exists d2,
            d2 = <["height" := VInt h]>
                   (<["width" := VInt w]>
                      (<["physical_height" := h0]>
                         (<["physical_width" := w0]>
                            (<["orientation" := o]> info))))
            /\ forall k, k <> "dpi" -> d !! k = d2 !! k).
  { eexists. split; [reflexivity|]. intros k Hk.
    destruct wm_dpi; injection Hd as <-; [reflexivity|].
    rewrite lookup_insert_ne by congruence. reflexivity. }
  destruct Hd' as (d2 & -> & Hk).
  rewrite !Hk by discriminate.
  repeat split.
  - rewrite lookup_insert_ne by discriminate. apply lookup_insert_eq.
  - apply lookup_insert_eq.
  - rewrite !lookup_insert_ne by discriminate. apply lookup_insert_eq.
  - rewrite !lookup_insert_ne by discriminate. apply lookup_insert_eq.
  - rewrite !lookup_insert_ne by discriminate. exact Ev.
Qed.

End DisplayExtras.

(** ** More on the bridge client *)

Module BridgeExtras.
Import PyStr Bridge BridgeFacts Specs.
Open Scope string_scope.
Open Scope list_scope.
Open Scope Z_scope.

Section Run.
Context `{Host}.
Variable self : ADB.

(** [cmd], as a function of what the child process does. *)
Lemma cmd_run cmds devices u timeout skip_error s argv r w :
  argv_of self cmds devices = Some argv ->
  communicate argv (if timeout_set timeout then timeout else None)
              (st_world s) = (r, w) ->
  cmd self cmds devices u timeout skip_error s
  = (if timeout_set timeout && proc_expired r then Err TimeoutExpired
     else match decoded u (proc_stdout r) with
          | None => Err UnicodeDecodeError
          | Some out =>
            match decoded u (proc_stderr r) with
            | None => Err UnicodeDecodeError
            | Some err =>
              if (proc_returncode r >? 0) && negb skip_error
              then Err (AdbError (to_pyout out) (to_pyout err) cmds)
              else Ok out
            end
          end,
     mkState w (st_trace s ++ [argv])).
Proof.
  intros Hargv Hcomm. unfold cmd. unfold bind at 1.
  rewrite start_cmd_spec, Hargv.
  unfold bind, proc_communicate, decode_out, ret, raise.
  destruct (timeout_set timeout); simpl; rewrite Hcomm.
  - destruct (proc_expired r); [reflexivity|].
    destruct (decoded u (proc_stdout r)); [|reflexivity].
    destruct (decoded u (proc_stderr r)); [|reflexivity].
    destruct (proc_returncode r >? 0), skip_error; reflexivity.
  - destruct (decoded u (proc_stdout r)); [|reflexivity].
    destruct (decoded u (proc_stderr r)); [|reflexivity].
    destruct (proc_returncode r >? 0), skip_error; reflexivity.
Qed.

Lemma cmd_no_device cmds devices u timeout skip_error s :
  argv_of self cmds devices = None ->
  cmd self cmds devices u timeout skip_error s = (Err TypeError, s).
Proof.
  intros Hargv. unfold cmd. unfold bind at 1.
  rewrite start_cmd_spec, Hargv. reflexivity.
Qed.


(** X9: the errors of [cmd] come in a fixed order. An expired timeout
    raises [TimeoutExpired] whatever the child printed or returned and
    even with [skip_error]; failing that, output that cannot be decoded
    raises [UnicodeDecodeError] even when the return code is 0 or
    [skip_error] is set; the return code is looked at last. *)
Theorem cmd_error_precedence cmds devices timeout skip_error s argv r w :
  argv_of self cmds devices = Some argv ->
  communicate argv (if timeout_set timeout then timeout else None)
              (st_world s) = (r, w) ->
  (timeout_set timeout = true -> proc_expired r = true ->
   forall u, fst (cmd self cmds devices u timeout skip_error s)
             = Err TimeoutExpired)
  /\ (timeout_set timeout && proc_expired r = false ->
      decode_fs (proc_stdout r) = None
      \/ decode_fs (proc_stderr r) = None ->
      fst (cmd self cmds devices true timeout skip_error s)
      = Err UnicodeDecodeError)
  /\ (timeout_set timeout && proc_expired r = false ->
      fst (cmd self cmds devices false timeout skip_error s)
      <> Err UnicodeDecodeError).
Proof.
  intros Hargv Hcomm. split; [|split].
  - intros Ht He u. rewrite (cmd_run _ _ u _ _ _ _ _ _ Hargv Hcomm).
    rewrite Ht, He. reflexivity.
  - intros Hne Hdec. rewrite (cmd_run _ _ true _ _ _ _ _ _ Hargv Hcomm).
    rewrite Hne. simpl.
    destruct Hdec as [Hd|Hd]; rewrite Hd; [reflexivity|].
    destruct (decode_fs (proc_stdout r)); reflexivity.
  - intros Hne. rewrite (cmd_run _ _ false _ _ _ _ _ _ Hargv Hcomm).
    rewrite Hne. simpl.
    destruct ((proc_returncode r >? 0) && negb skip_error); discriminate.
Qed.

(** X10: [raw_shell] adds no error of its own: it raises exactly the
    error of the bridge invocation, and output that [SHELL_ENCODING]
    cannot decode is returned as its [repr]. It never raises
    [UnicodeDecodeError]. *)
Theorem raw_shell_errors cmds u skip_error s :
  (forall e, fst (raw_shell self cmds u skip_error s) = Err e
             <-> fst (cmd self (CmdList ("shell" :: split_cmd cmds))
                          true false None skip_error s) = Err e)
  /\ fst (raw_shell self cmds u skip_error s) <> Err UnicodeDecodeError.
Proof.
  assert (Hiff : forall e, fst (raw_shell self cmds u skip_error s) = Err e
             <-> fst (cmd self (CmdList ("shell" :: split_cmd cmds))
                          true false None skip_error s) = Err e).
  { intros e. unfold raw_shell, bind.
    destruct (cmd self _ true false None skip_error s) as [[out|e'] s1];
      simpl; [|split; intros [= ->]; reflexivity].
    destruct u; simpl; [|split; discriminate].
    destruct (decode_shell out); simpl; split; discriminate. }
  split; [exact Hiff|].
  intros Hu. apply Hiff in Hu.
  destruct (argv_of self (CmdList ("shell" :: split_cmd cmds)) true)
    as [argv|] eqn:Hargv.
  - destruct (communicate argv None (st_world s)) as [r w] eqn:Hcomm.
    rewrite (cmd_run _ _ false None _ _ _ _ _ Hargv Hcomm) in Hu.
    simpl in Hu.
    destruct ((proc_returncode r >? 0) && negb skip_error); discriminate.
  - rewrite (cmd_no_device _ _ _ _ _ _ Hargv) in Hu. discriminate.
Qed.


(** X12: from SDK level 25 on, [shell] is [raw_shell] with every
    [AdbError] replaced by [TypeError]: results and other errors pass
    unchanged, so that [shell] never raises [AdbError]. *)
Theorem shell_new_sdk cmds s :
  25 <= _sdk_version self ->
  shell self cmds s
  = (match fst (raw_shell self cmds true false s) with
     | Err (AdbError _ _ _) => Err TypeError
     | r => r
     end, snd (raw_shell self cmds true false s)).
Proof.
  intros Hsdk. unfold shell.
  assert (E : (_sdk_version self <? 25) = false) by lia. rewrite E.
  unfold catch_AdbError.
  destruct (raw_shell self cmds true false s) as [[a|[]] s']; reflexivity.
Qed.

(** X13: [get_forwards] asks the bridge for the forwards of every
    device and does not look at the return code: it returns the entries
    read from the standard output whenever both streams can be decoded,
    and raises [UnicodeDecodeError] when the standard error cannot, although
    it does not use it. *)
Theorem get_forwards_ignores_returncode s r w out :
  communicate (list_argv self) None (st_world s) = (r, w) ->
  decode_fs (proc_stdout r) = Some out ->
  (is_Some (decode_fs (proc_stderr r)) ->
   fst (get_forwards self s) = Ok (parse_forwards out))
  /\ (decode_fs (proc_stderr r) = None ->
      fst (get_forwards self s) = Err UnicodeDecodeError).
Proof.
  intros Hcomm Hout. unfold get_forwards, bind.
  rewrite (cmd_run (CmdList ["forward"; "--list"]) false true None true s
                   (list_argv self) r w eq_refl Hcomm).
  simpl. rewrite Hout. split.
  - intros [err Herr]. rewrite Herr, andb_false_r. reflexivity.
  - intros Herr. rewrite Herr. reflexivity.
Qed.

(** X14: when no entry has the local or the remote and the bridge
    refuses the forward, [forward] raises the [AdbError] of the invocation,
    carrying the output of the bridge and the forward command. *)
Theorem forward_propagates_AdbError local remote no_rebind s c d l s1
    r w out err :
  device_id self = Some (String c d) ->
  get_forwards self s = (Ok l, s1) ->
  Forall (no_match local remote) l ->
  communicate (forward_argv self (String c d) local remote no_rebind) None
              (st_world s1) = (r, w) ->
  decode_fs (proc_stdout r) = Some out ->
  decode_fs (proc_stderr r) = Some err ->
  proc_returncode r > 0 ->
  fst (forward self local remote no_rebind s)
  = Err (AdbError (OStr out) (OStr err)
                  (CmdList (forward_cmds local remote no_rebind))).
Proof.
  intros Hdev Hl Hf Hcomm Hout Herr Hrc.
  rewrite (forward_run self _ _ _ _ _ _ Hl).
  destruct (scan_forwards_spec local remote l 0) as
    [(k & e & Hs & _ & He & Hm)|[Hs _]].
  { intros e He. apply (live_nonempty self s l e); [|exact He].
    unfold live. rewrite Hl. reflexivity. }
  - rewrite Nat.sub_0_r in He. apply list_elem_of_lookup_2 in He.
    rewrite Forall_forall in Hf. destruct (Hf e He) as [H1 H2].
    destruct Hm; contradiction.
  - rewrite Hs.
    assert (Hargv : argv_of self
                      (CmdList (forward_cmds local remote no_rebind)) true
                    = Some (forward_argv self (String c d) local remote
                                         no_rebind)).
    { unfold argv_of. rewrite Hdev. reflexivity. }
    rewrite (cmd_run _ _ true None false s1 _ r w Hargv Hcomm).
    simpl. rewrite Hout, Herr.
    assert (E : (proc_returncode r >? 0) = true) by lia. rewrite E.
    reflexivity.
Qed.

End Run.

Lemma scan_forwards_first local remote : forall l i,
  match scan_forwards local remote i l with
  | (true, Some k) =>
    (i <= k)%nat
    /\ (exists e, l !! (k - i)%nat = Some e /\ entry_matches local remote e)
    /\ (forall j e, (j < k - i)%nat -> l !! j = Some e ->
                    ~ entry_matches local remote e)
  | (false, None) => Forall (fun e => ~ entry_matches local remote e) l
  | _ => False
  end.
Proof.
  induction l as [|v l IH]; intros i; cbn [scan_forwards].
  - constructor.
  - destruct (truthy local && bool_decide (Some (fwd_local v) = local))
      eqn:E1.
    { apply andb_true_iff in E1 as [Ht E1].
      apply bool_decide_eq_true in E1.
      split; [lia|]. rewrite Nat.sub_diag. split.
      - exists v. split; [reflexivity | left; split; assumption].
      - intros j e Hj. lia. }
    destruct (truthy remote && bool_decide (Some (fwd_remote v) = remote))
      eqn:E2.
    { apply andb_true_iff in E2 as [Ht E2].
      apply bool_decide_eq_true in E2.
      split; [lia|]. rewrite Nat.sub_diag. split.
      - exists v. split; [reflexivity | right; split; assumption].
      - intros j e Hj. lia. }
    assert (Hv : ~ entry_matches local remote v).
    { intros [[Ht Hm]|[Ht Hm]].
      - rewrite Ht in E1. simpl in E1.
        apply bool_decide_eq_false in E1. contradiction.
      - rewrite Ht in E2. simpl in E2.
        apply bool_decide_eq_false in E2. contradiction. }
    specialize (IH (S i)).
    destruct (scan_forwards local remote (S i) l) as [[|] [k|]];
      try exact IH.
    + destruct IH as (Hk & (e & He & Hm) & Hmin).
      split; [lia|]. split.
      * exists e. replace (k - i)%nat with (S (k - S i)) by lia.
        split; [exact He | exact Hm].
      * intros j e' Hj Hl'. destruct j as [|j].
        -- injection Hl' as <-. exact Hv.
        -- apply (Hmin j e'); [lia | exact Hl'].
    + constructor; [exact Hv | exact IH].
Qed.

Lemma scan_forwards_none local remote l :
  Forall (fun e => ~ entry_matches local remote e) l ->
  scan_forwards local remote 0 l = (false, None).
Proof.
  intros Hf. pose proof (scan_forwards_first local remote l 0) as Hs.
  destruct (scan_forwards local remote 0 l) as [[|] [k|]];
    try contradiction; [|reflexivity].
  destruct Hs as (_ & (e & He & Hm) & _).
  rewrite Forall_forall in Hf. destruct (Hf e); [|exact Hm].
  apply list_elem_of_lookup_2 in He. exact He.
Qed.

Lemma scan_forwards_at local remote l k e :
  l !! k = Some e -> entry_matches local remote e ->
  (forall j e', (j < k)%nat -> l !! j = Some e' ->
                ~ entry_matches local remote e') ->
  scan_forwards local remote 0 l = (true, Some k).
Proof.
  intros He Hm Hmin.
  pose proof (scan_forwards_first local remote l 0) as Hs.
  destruct (scan_forwards local remote 0 l) as [[|] [k'|]];
    try contradiction.
  - destruct Hs as (_ & (e' & He' & Hm') & Hmin').
    rewrite Nat.sub_0_r in He', Hmin'.
    destruct (Nat.lt_trichotomy k k') as [Hlt|[->|Hlt]]; [|reflexivity|].
    + destruct (Hmin' k e Hlt He Hm).
    + destruct (Hmin k' e' Hlt He' Hm').
  - rewrite Forall_forall in Hs. destruct (Hs e); [|exact Hm].
    apply list_elem_of_lookup_2 in He. exact He.
Qed.

(** X15: [_local_in_forwards] returns the index of the first entry that
    has the given local or the given remote, where an argument that is
    [None] or empty matches nothing; it returns [(False, None)] exactly when
    no entry matches. An earlier entry with the remote wins over a later
    entry with the local. *)
Theorem local_in_forwards_first_match local remote l :
  match scan_forwards local remote 0 l with
  | (true, Some k) =>
    (exists e, l !! k = Some e /\ entry_matches local remote e)
    /\ (forall j e, (j < k)%nat -> l !! j = Some e ->
                    ~ entry_matches local remote e)
  | (false, None) => Forall (fun e => ~ entry_matches local remote e) l
  | _ => False
  end.
Proof.
  pose proof (scan_forwards_first local remote l 0) as Hgen.
  destruct (scan_forwards local remote 0 l) as [[|] [k|]]; try exact Hgen.
  destruct Hgen as (_ & He & Hmin). rewrite Nat.sub_0_r in He, Hmin.
  split; assumption.
Qed.

Section PortFacts.
Context `{PortEnv}.


End PortFacts.

End BridgeExtras.

(** ** Facts on the string operations *)

Module TextFacts.
Import PyStr PyText Specs SimFacts.
Open Scope list_scope.
Open Scope string_scope.
Open Scope Z_scope.

Lemma take_digits_stop acc rest :
  digit_free_start rest -> take_digits acc rest = (acc, rest).
Proof.
  destruct rest as [|c rest]; [reflexivity|]. simpl. intros ->. reflexivity.
Qed.

Lemma take_digits_uint_acc d : forall acc rest,
  digit_free_start rest ->
  take_digits (Some (Z.pos acc))
              (DecimalString.NilEmpty.string_of_uint d ++ rest)
  = (Some (Z.pos (Pos.of_uint_acc d acc)), rest).
Proof.
  induction d as [|d IH|d IH|d IH|d IH|d IH|d IH|d IH|d IH|d IH|d IH];
    intros acc rest Hrest;
    cbn [DecimalString.NilEmpty.string_of_uint Pos.of_uint_acc];
    [rewrite append_nil_l; apply take_digits_stop; exact Hrest | ..];
    rewrite append_cons; cbn [take_digits];
    match goal with
    | |- context [digit_val ?c] =>
      let v := eval vm_compute in (digit_val c) in
      change (digit_val c) with v
    end; cbn [default id];
    rewrite <- (IH _ rest Hrest); f_equal; f_equal; lia.
Qed.

Lemma take_digits_uint d : forall rest,
  digit_free_start rest ->
  take_digits (Some 0) (DecimalString.NilEmpty.string_of_uint d ++ rest)
  = (Some (Z.of_N (Pos.of_uint d)), rest).
Proof.
  induction d as [|d IH|d IH|d IH|d IH|d IH|d IH|d IH|d IH|d IH|d IH];
    intros rest Hrest;
    cbn [DecimalString.NilEmpty.string_of_uint Pos.of_uint];
    [rewrite append_nil_l; apply take_digits_stop; exact Hrest | ..];
    rewrite append_cons; cbn [take_digits];
    match goal with
    | |- context [digit_val ?c] =>
      let v := eval vm_compute in (digit_val c) in
      change (digit_val c) with v
    end; cbn [default id];
    [ exact (IH rest Hrest)
    | exact (take_digits_uint_acc d _ rest Hrest) .. ].
Qed.

Lemma take_digits_nonnil d rest :
  d <> Decimal.Nil ->
  take_digits None (DecimalString.NilEmpty.string_of_uint d ++ rest)
  = take_digits (Some 0) (DecimalString.NilEmpty.string_of_uint d ++ rest).
Proof.
  intros Hd. destruct d; [contradiction | ..];
    cbn [DecimalString.NilEmpty.string_of_uint];
    rewrite append_cons; reflexivity.
Qed.

(** [int] reads back what [str] prints. *)
Lemma take_digits_str_int n rest :
  0 <= n -> digit_free_start rest ->
  take_digits None (str_int n ++ rest) = (Some n, rest).
Proof.
  intros Hn Hrest. unfold str_int. destruct n as [|p|p]; [| |lia].
  - cbn. rewrite append_cons, append_nil_l. cbn [take_digits].
    change (digit_val "0") with (Some 0). cbn [default id].
    apply take_digits_stop. exact Hrest.
  - cbn [Z.to_int DecimalString.NilZero.string_of_int].
    pose proof (DecimalPos.Unsigned.to_uint_nonnil p) as Hnil.
    replace (DecimalString.NilZero.string_of_uint (Pos.to_uint p))
      with (DecimalString.NilEmpty.string_of_uint (Pos.to_uint p))
      by (destruct (Pos.to_uint p); [contradiction | reflexivity ..]).
    rewrite (take_digits_nonnil _ rest Hnil), (take_digits_uint _ rest Hrest).
    rewrite DecimalPos.Unsigned.of_to. reflexivity.
Qed.


Lemma uint_digits d :
  all_chars is_digit (DecimalString.NilEmpty.string_of_uint d) = true.
Proof. induction d; cbn; try assumption; reflexivity. Qed.

Lemma str_int_digits n :
  0 <= n ->
  exists c s, str_int n = String c s /\ is_digit c = true
              /\ all_chars is_digit s = true.
Proof.
  intros Hn. unfold str_int. destruct n as [|p|p]; [| |lia].
  - exists "0"%char, "". repeat split.
  - cbn [Z.to_int DecimalString.NilZero.string_of_int].
    pose proof (DecimalPos.Unsigned.to_uint_nonnil p) as Hnil.
    pose proof (uint_digits (Pos.to_uint p)) as Hd.
    unfold DecimalString.NilZero.string_of_uint.
    destruct (Pos.to_uint p); [contradiction | ..];
      cbn [DecimalString.NilEmpty.string_of_uint] in *;
      eexists _, _; (split; [reflexivity|]);
      (split; [reflexivity | exact Hd]).
Qed.

Lemma marker_suffix_digit c s :
  is_digit c = true ->
  marker_suffix (String c s) = None
  /\ marker_suffix (String "-" (String c s)) = None
  /\ marker_suffix (String "-" (String "-" (String c s))) = None.
Proof.
  intros Hc.
  destruct c as [[|] [|] [|] [|] [|] [|] [|] [|]];
    vm_compute in Hc; try discriminate Hc; repeat split.
Qed.

Lemma match_marker_miss c s :
  match_marker s = None -> marker_suffix (String c s) = None ->
  match_marker (String c s) = None.
Proof. intros H1 H2. cbn [match_marker]. rewrite H1, H2. reflexivity. Qed.

Lemma match_marker_hit c s n :
  match_marker s = None -> marker_suffix (String c s) = Some n ->
  match_marker (String c s) = Some ("", n).
Proof. intros H1 H2. cbn [match_marker]. rewrite H1, H2. reflexivity. Qed.

Lemma match_marker_digits D :
  all_chars is_digit D = true -> match_marker (D ++ "---") = None.
Proof.
  induction D as [|c D IH]; [reflexivity|].
  cbn [all_chars]. intros [Hc HD]%andb_true_iff.
  rewrite append_cons. apply match_marker_miss; [exact (IH HD)|].
  apply (marker_suffix_digit c (D ++ "---") Hc).
Qed.

(** The marker [echo ---$?---] prints is found after any output. *)
Lemma match_marker_app out n :
  0 <= n ->
  match_marker (out ++ "---" ++ str_int n ++ "---") = Some (out, n).
Proof.
  intros Hn. induction out as [|c out IH].
  - rewrite append_nil_l.
    destruct (str_int_digits n Hn) as (c & D & E & Hc & HD).
    pose proof (take_digits_str_int n "---" Hn eq_refl) as Htd.
    assert (H0 : match_marker (str_int n ++ "---") = None).
    { rewrite E. apply (match_marker_digits (String c D)).
      cbn [all_chars]. rewrite Hc, HD. reflexivity. }
    destruct (marker_suffix_digit c (D ++ "---") Hc) as (_ & M1 & M2).
    rewrite E, append_cons in H0.
    change ("---" ++ str_int n ++ "---")%string
      with (String "-" (String "-" (String "-" (str_int n ++ "---")%string))).
    apply match_marker_hit.
    + rewrite E, append_cons.
      apply match_marker_miss; [|exact M2].
      apply match_marker_miss; [exact H0 | exact M1].
    + cbn [marker_suffix]. rewrite Htd. reflexivity.
  - rewrite append_cons. cbn [match_marker]. rewrite IH. reflexivity.
Qed.

Lemma rstrip_spaces ws : all_chars is_space ws = true -> rstrip ws = "".
Proof.
  induction ws as [|c ws IH]; [reflexivity|].
  cbn [all_chars]. intros [Hc Hws]%andb_true_iff.
  cbn [rstrip]. rewrite (IH Hws), Hc. reflexivity.
Qed.

Lemma rstrip_app_spaces a ws :
  all_chars is_space ws = true -> rstrip (a ++ ws) = rstrip a.
Proof.
  intros Hws. induction a as [|c a IH].
  - rewrite append_nil_l. apply rstrip_spaces. exact Hws.
  - rewrite append_cons. cbn [rstrip]. rewrite IH. reflexivity.
Qed.

Lemma rstrip_marker out D ws :
  all_chars is_space ws = true ->
  rstrip (out ++ "---" ++ D ++ "---" ++ ws) = out ++ "---" ++ D ++ "---".
Proof.
  intros Hws.
  replace (out ++ "---" ++ D ++ "---" ++ ws)
    with ((out ++ "---" ++ D ++ "---") ++ ws)
    by (rewrite !append_assoc; reflexivity).
  rewrite (rstrip_app_spaces _ ws Hws).
  replace (out ++ "---" ++ D ++ "---")
    with ((out ++ "---" ++ D ++ "--") ++ "-")
    by (rewrite !append_assoc; reflexivity).
  apply rstrip_app_word. reflexivity.
Qed.

Lemma search_digits_after_prefix pre n :
  0 <= n -> search_digits_after pre (pre ++ str_int n) = Some n.
Proof.
  intros Hn.
  assert (Hd : digits_after pre (pre ++ str_int n) = Some n).
  { unfold digits_after.
    assert (Hp : forall p s, strip_prefix p (p ++ s) = Some s).
    { induction p as [|a p IH]; intros s; [reflexivity|].
      rewrite append_cons. cbn [strip_prefix]. rewrite Ascii.eqb_refl.
      apply IH. }
    rewrite Hp. rewrite <- (append_nil_r (str_int n)).
    rewrite (take_digits_str_int n "" Hn I). reflexivity. }
  destruct (pre ++ str_int n); cbn [search_digits_after]; rewrite Hd;
    reflexivity.
Qed.

Lemma take_digits_nonneg s : forall acc n,
  (forall a, acc = Some a -> 0 <= a) ->
  fst (take_digits acc s) = Some n -> 0 <= n.
Proof.
  induction s as [|c s IH]; intros acc n Hacc; cbn [take_digits].
  - apply Hacc.
  - destruct (digit_val c) as [d|] eqn:Ed; [|apply Hacc].
    apply IH. intros a [= <-].
    assert (0 <= d).
    { unfold digit_val in Ed.
      destruct ((48 <=? N_of_ascii c)%N && (N_of_ascii c <=? 57)%N) eqn:E;
        [|discriminate]. injection Ed as <-.
      apply andb_true_iff in E as [E1 _]. apply N.leb_le in E1. lia. }
    destruct acc as [a|]; cbn [default id];
      [specialize (Hacc a eq_refl)|]; lia.
Qed.

Lemma digits_after_nonneg pre s n : digits_after pre s = Some n -> 0 <= n.
Proof.
  unfold digits_after. destruct (strip_prefix pre s) as [r|]; [|discriminate].
  apply (take_digits_nonneg r None n). discriminate.
Qed.

Lemma search_digits_after_nonneg pre s n :
  search_digits_after pre s = Some n -> 0 <= n.
Proof.
  induction s as [|c s IH]; cbn [search_digits_after];
    destruct (digits_after pre _) as [m|] eqn:E; intros Hs.
  - injection Hs as <-. exact (digits_after_nonneg _ _ _ E).
  - discriminate.
  - injection Hs as <-. exact (digits_after_nonneg _ _ _ E).
  - exact (IH Hs).
Qed.

Lemma spaced_digits_after_nonneg pre s n :
  spaced_digits_after pre s = Some n -> 0 <= n.
Proof.
  unfold spaced_digits_after.
  destruct (strip_prefix pre s) as [[|x r]|]; try discriminate.
  destruct (is_space x); [|discriminate].
  apply (take_digits_nonneg (lstrip r) None n). discriminate.
Qed.

Lemma search_spaced_digits_after_nonneg pre s n :
  search_spaced_digits_after pre s = Some n -> 0 <= n.
Proof.
  induction s as [|c s IH]; cbn [search_spaced_digits_after];
    destruct (spaced_digits_after pre _) as [m|] eqn:E; intros Hs.
  - injection Hs as <-. exact (spaced_digits_after_nonneg _ _ _ E).
  - discriminate.
  - injection Hs as <-. exact (spaced_digits_after_nonneg _ _ _ E).
  - exact (IH Hs).
Qed.

Lemma split_lstrip s : split (lstrip s) = split s.
Proof.
  induction s as [|c s IH]; [reflexivity|].
  cbn [lstrip]. destruct (is_space c) eqn:Ec; [|reflexivity].
  rewrite IH. cbn [split]. rewrite Ec. reflexivity.
Qed.

Lemma rstrip_head c s c' t : rstrip (String c s) = String c' t -> c' = c.
Proof.
  cbn [rstrip]. destruct (rstrip s); [destruct (is_space c)|];
    congruence.
Qed.

Lemma split_rstrip s : split (rstrip s) = split s.
Proof.
  induction s as [|c s IH]; [reflexivity|].
  cbn [rstrip]. destruct (rstrip s) as [|c' t] eqn:Er.
  - cbn [split] in IH. destruct (is_space c) eqn:Ec.
    + cbn [split]. rewrite Ec. exact IH.
    + cbn [split]. rewrite Ec. rewrite <- IH.
      destruct s as [|c2 s2]; [reflexivity|].
      destruct (is_space c2); reflexivity.
  - destruct s as [|c2 s2]; [discriminate|].
    pose proof (rstrip_head _ _ _ _ Er) as ->.
    change (split (String c (String c2 t)))
      with (if is_space c then split (String c2 t)
            else if is_space c2 then String c "" :: split (String c2 t)
                 else match split (String c2 t) with
                      | w :: ws => String c w :: ws
                      | [] => [String c ""]
                      end).
    change (split (String c (String c2 s2)))
      with (if is_space c then split (String c2 s2)
            else if is_space c2 then String c "" :: split (String c2 s2)
                 else match split (String c2 s2) with
                      | w :: ws => String c w :: ws
                      | [] => [String c ""]
                      end).
    rewrite IH. reflexivity.
Qed.

Lemma split_strip s : split (strip s) = split s.
Proof. unfold strip. rewrite split_rstrip. apply split_lstrip. Qed.

Lemma split_on_nonempty sep s : split_on sep s <> [].
Proof.
  destruct s as [|c s]; [discriminate|]. cbn [split_on].
  destruct (Ascii.eqb c sep); [discriminate|].
  destruct (split_on sep s); discriminate.
Qed.

Lemma contains_split_on sep p :
  match split_on sep p with
  | _ :: _ :: _ => contains (String sep "") p = true
  | _ => contains (String sep "") p = false
  end.
Proof.
  induction p as [|c p IH]; [reflexivity|].
  cbn [split_on contains is_prefix].
  rewrite (Ascii.eqb_sym sep c).
  destruct (Ascii.eqb c sep) eqn:Ec.
  - destruct (split_on sep p) eqn:E; [|reflexivity].
    destruct (split_on_nonempty _ _ E).
  - cbn [andb orb].
    destruct (split_on sep p) as [|a [|b r]]; exact IH.
Qed.

End TextFacts.

(** ** The device methods *)

Module DeviceExtras.
Import PyStr PyText Bridge Device Sim Specs.
Import BridgeFacts SimFacts TextFacts BridgeExtras.
Open Scope string_scope.
Open Scope list_scope.
Open Scope Z_scope.

Section Methods.
Context `{Host}.
Variable self : ADB.

(** X17: on a device below SDK level 25, when the shell prints [out]
    followed by the marker [---n---] and trailing white space, [shell]
    returns [out] as it is, white space at its end included, when [n] is 0,
    and raises [TypeError] when [n] is positive. *)
Theorem shell_old_sdk_round_trip c s out n ws s' :
  _sdk_version self < 25 ->
  raw_shell self (CmdList (split_cmd c ++ [";"; "echo"; "---$?---"]))
            true false s
  = (Ok (out ++ "---" ++ str_int n ++ "---" ++ ws)%string, s') ->
  0 <= n ->
  all_chars is_space ws = true ->
  shell self c s = (if n >? 0 then Err TypeError else Ok out, s').
Proof.
  intros Hsdk Hraw Hn Hws.
  apply (shell_old_sdk_marker self c s _ s' out n Hsdk Hraw).
  rewrite (rstrip_marker out (str_int n) ws Hws).
  apply match_marker_app. exact Hn.
Qed.

(** X19: [get_forward_port] returns [None] when no entry of the forward
    list has the remote [localabstract:<remote>]; when the first entry
    that has it has the local [tcp:<p>], it returns [p] as an integer. *)
Theorem get_forward_port_cases remote s l s1 :
  get_forwards self s = (Ok l, s1) ->
  (Forall (fun e => fwd_remote e <> ("localabstract:" ++ remote)%string) l ->
   get_forward_port self remote s = (Ok None, s1))
  /\ (forall k e p s2,
        get_forwards self s1 = (Ok l, s2) ->
        l !! k = Some e ->
        fwd_remote e = ("localabstract:" ++ remote)%string ->
        (forall j e', (j < k)%nat -> l !! j = Some e' ->
                      fwd_remote e' <> ("localabstract:" ++ remote)%string) ->
        fwd_local e = ("tcp:" ++ str_int p)%string ->
        0 <= p ->
        get_forward_port self remote s = (Ok (Some p), s2)).
Proof.
  intros Hl.
  assert (Hno : forall e,
    entry_matches None (Some ("localabstract:" ++ remote)%string) e
    <-> fwd_remote e = ("localabstract:" ++ remote)%string).
  { intros e. unfold entry_matches. split.
    - intros [[Ht _]|[_ Hm]]; [discriminate | congruence].
    - intros Hm. right. split; [reflexivity | congruence]. }
  split.
  - intros Hf. unfold get_forward_port, _local_in_forwards.
    unfold bind at 1 2. rewrite Hl. cbn [ret].
    rewrite scan_forwards_none; [reflexivity|].
    eapply Forall_impl; [exact Hf|]. intros e He Hm. apply Hno in Hm.
    contradiction.
  - intros k e p s2 Hl2 He Hr Hmin Hloc Hp.
    unfold get_forward_port, _local_in_forwards.
    unfold bind at 1 2. rewrite Hl. cbn [ret].
    rewrite (scan_forwards_at _ _ l k e He).
    + cbn [fst snd negb]. unfold bind. rewrite Hl2, He, Hloc.
      rewrite (search_digits_after_prefix "tcp:" p Hp). reflexivity.
    + apply Hno. exact Hr.
    + intros j e' Hj He' Hm. apply Hno in Hm.
      exact (Hmin j e' Hj He' Hm).
Qed.

(** X20: [getDisplayOrientation] never returns a negative number. *)
Theorem getDisplayOrientation_nonneg s n :
  fst (getDisplayOrientation self s) = Ok n -> 0 <= n.
Proof.
  unfold getDisplayOrientation. unfold bind at 1.
  destruct (shell self (CmdStr "dumpsys SurfaceFlinger") s) as [[o1|e] s1];
    [|discriminate].
  destruct (search_digits_after "orientation=" o1) as [m|] eqn:E1.
  - intros [= <-]. exact (search_digits_after_nonneg _ _ _ E1).
  - unfold bind.
    destruct (shell self (CmdStr "dumpsys input") s1) as [[o2|e] s2];
      [|discriminate].
    destruct (search_spaced_digits_after "SurfaceOrientation:" o2)
      as [m|] eqn:E2; intros [= <-]; [|lia].
    exact (search_spaced_digits_after_nonneg _ _ _ E2).
Qed.

Lemma max_xy_step_fst acc i :
  fst (max_xy_step acc i)
  = if contains "0035" i
    then match search_digits_after "max " i with
         | Some n => Some n
         | None => fst acc
         end
    else fst acc.
Proof. destruct acc. reflexivity. Qed.

Lemma max_xy_step_snd acc i :
  snd (max_xy_step acc i)
  = if contains "0036" i
    then match search_digits_after "max " i with
         | Some n => Some n
         | None => snd acc
         end
    else snd acc.
Proof. destruct acc. reflexivity. Qed.

Lemma fold_max_x lines : forall acc,
  fst (fold_left max_xy_step lines acc) = None
  <-> fst acc = None
      /\ Forall (fun i => contains "0035" i = false
                          \/ search_digits_after "max " i = None) lines.
Proof.
  induction lines as [|i lines IH]; intros acc; cbn [fold_left].
  - split; [intros Ha; split; [exact Ha | constructor]
           | intros [Ha _]; exact Ha].
  - rewrite IH, max_xy_step_fst.
    destruct (contains "0035" i) eqn:Ec;
      [destruct (search_digits_after "max " i) as [m|] eqn:Es|]; split.
    + intros [Hm _]. discriminate.
    + intros [_ Hf]. apply Forall_cons in Hf as [[Hf|Hf] _]; congruence.
    + intros [Hm Hf]. split; [exact Hm|]. constructor; [now right | exact Hf].
    + intros [Hm Hf]. apply Forall_cons in Hf as [_ Hf]. now split.
    + intros [Hm Hf]. split; [exact Hm|]. constructor; [now left | exact Hf].
    + intros [Hm Hf]. apply Forall_cons in Hf as [_ Hf]. now split.
Qed.

Lemma fold_max_y lines : forall acc,
  snd (fold_left max_xy_step lines acc) = None
  <-> snd acc = None
      /\ Forall (fun i => contains "0036" i = false
                          \/ search_digits_after "max " i = None) lines.
Proof.
  induction lines as [|i lines IH]; intros acc; cbn [fold_left].
  - split; [intros Ha; split; [exact Ha | constructor]
           | intros [Ha _]; exact Ha].
  - rewrite IH, max_xy_step_snd.
    destruct (contains "0036" i) eqn:Ec;
      [destruct (search_digits_after "max " i) as [m|] eqn:Es|]; split.
    + intros [Hm _]. discriminate.
    + intros [_ Hf]. apply Forall_cons in Hf as [[Hf|Hf] _]; congruence.
    + intros [Hm Hf]. split; [exact Hm|]. constructor; [now right | exact Hf].
    + intros [Hm Hf]. apply Forall_cons in Hf as [_ Hf]. now split.
    + intros [Hm Hf]. split; [exact Hm|]. constructor; [now left | exact Hf].
    + intros [Hm Hf]. apply Forall_cons in Hf as [_ Hf]. now split.
Qed.

(** X21: [getMaxXY] returns [None] for [max_x] exactly when no line of
    the [getevent -p] output mentions [0035] together with [max <digits>],
    and likewise [None] for [max_y] and [0036]. *)
Theorem getMaxXY_none_iff s out s1 :
  shell self (CmdStr "getevent -p") s = (Ok out, s1) ->
  exists max_x max_y,
    getMaxXY self s = (Ok (max_x, max_y), s1)
    /\ (max_x = None
        <-> Forall (fun i => contains "0035" i = false
                             \/ search_digits_after "max " i = None)
                   (split_on "010" out))
    /\ (max_y = None
        <-> Forall (fun i => contains "0036" i = false
                             \/ search_digits_after "max " i = None)
                   (split_on "010" out)).
Proof.
  intros Hs. unfold getMaxXY, bind. rewrite Hs. cbn [ret].
  pose proof (fold_max_x (split_on "010" out) (None, None)) as Hx.
  pose proof (fold_max_y (split_on "010" out) (None, None)) as Hy.
  destruct (fold_left max_xy_step (split_on "010" out) (None, None))
    as [mx my].
  exists mx, my. split; [reflexivity|]. cbn [fst snd] in Hx, Hy. split.
  - rewrite Hx. split; [intros [_ Hf]; exact Hf | intros Hf; now split].
  - rewrite Hy. split; [intros [_ Hf]; exact Hf | intros Hf; now split].
Qed.

Lemma package_names_cases lines :
  match package_names lines with
  | Ok names =>
    Forall (fun p => p = "" \/ contains ":" p = true) lines
    /\ length names = length (filter (fun p => p <> "") lines)
  | Err e =>
    e = IndexError
    /\ Exists (fun p => p <> "" /\ contains ":" p = false) lines
  end.
Proof.
  induction lines as [|p lines IH]; cbn [package_names].
  - split; [constructor | reflexivity].
  - destruct p as [|c p].
    + cbn [is_empty]. rewrite filter_cons_False by (intros Hne; now apply Hne).
      destruct (package_names lines) as [names|e].
      * destruct IH as [Hf Hlen]. split; [|exact Hlen].
        constructor; [now left | exact Hf].
      * destruct IH as [He Hex]. split; [exact He|]. now apply Exists_cons_tl.
    + cbn [is_empty].
      pose proof (contains_split_on ":" (String c p)) as Hc.
      destruct (split_on ":" (String c p)) as [|a [|b r]].
      * split; [reflexivity|]. apply Exists_cons_hd. split; [discriminate|].
        exact Hc.
      * split; [reflexivity|]. apply Exists_cons_hd. split; [discriminate|].
        exact Hc.
      * destruct (package_names lines) as [names|e].
        -- destruct IH as [Hf Hlen]. split.
           ++ constructor; [now right | exact Hf].
           ++ rewrite filter_cons_True by discriminate.
              cbn [length]. now rewrite Hlen.
        -- destruct IH as [He Hex]. split; [exact He|].
           now apply Exists_cons_tl.
Qed.

(** X22: [list_app] raises [IndexError] exactly when some non-empty
    line of the package list has no colon; otherwise it returns one name
    for every non-empty line. It raises no other error of its own. *)
Theorem list_app_IndexError_iff (third_only : bool) s out s1 :
  shell self (CmdList (["pm"; "list"; "packages"]
                       ++ (if third_only then ["-3"] else []))) s
  = (Ok out, s1) ->
  (fst (list_app self third_only s) = Err IndexError
   <-> Exists (fun p => p <> "" /\ contains ":" p = false) (splitlines out))
  /\ ((exists names,
         fst (list_app self third_only s) = Ok names
         /\ length names
            = length (filter (fun p => p <> "") (splitlines out)))
      \/ fst (list_app self third_only s) = Err IndexError).
Proof.
  intros Hs. unfold list_app, bind. rewrite Hs.
  pose proof (package_names_cases (splitlines out)) as Hc.
  destruct (package_names (splitlines out)) as [names|e]; cbn [fst ret raise].
  - destruct Hc as [Hf Hlen]. split; [|left; eauto]. split; [discriminate|].
    intros Hex. apply Exists_exists in Hex as (p & Hin & Hne & Hcol).
    rewrite Forall_forall in Hf. destruct (Hf p Hin) as [Hp|Hp]; congruence.
  - destruct Hc as [-> Hex]. split; [|now right]. split; [intros _; exact Hex|].
    reflexivity.
Qed.

(** X23: [connect] starts no process for a serial without a colon.
    With a colon and without [force], it asks for the status and then
    behaves as with [force] for every status other than the string
    [devices]: a device in the state [device] is connected again. *)
Theorem connect_cases force s :
  (match device_id self with
   | Some id => contains ":" id = false
   | None => True
   end -> connect self force s = (Ok tt, s))
  /\ (forall id status s1,
        device_id self = Some id -> contains ":" id = true ->
        get_status self s = (Ok status, s1) ->
        status <> Some "devices" ->
        connect self false s = connect self true s1).
Proof.
  split.
  - unfold connect. destruct (device_id self) as [[|c d]|];
      [reflexivity | | reflexivity].
    intros ->. reflexivity.
  - intros id status s1 Hid Hc Hst Hne. unfold connect. rewrite Hid.
    destruct id as [|c d]; [discriminate Hc|]. rewrite Hc.
    unfold bind at 1 2. rewrite Hst. cbn [ret].
    rewrite bool_decide_eq_false_2 by exact Hne. reflexivity.
Qed.

End Methods.

Section Reserve.
Context `{Host} `{PortEnv}.
Variable self : ADB.
Variables cl cr : string.
Context {FC : ForwardContract self cl cr}.

(** X24: when an entry of the forward list already has the remote,
    [set_forward] still returns the port it has just reserved, although it
    only queries the list, twice, and forwards nothing. *)
Theorem set_forward_listed_remote depth i remote s c d l p e :
  device_id self = Some (String c d) ->
  get_available_forward_local self depth i = Ok p ->
  live self s = Ok l ->
  e ∈ l -> fwd_remote e = remote ->
  exists s2, set_forward self depth i remote s = (Ok (p, remote), s2)
             /\ issued_since s s2 = [list_argv self; list_argv self]
             /\ live self s2 = Ok l.
Proof.
  intros Hdev Hp Hl He Hr.
  destruct (forward_noop self cl cr ("tcp:" ++ str_int p) remote true
                         s c d l Hdev Hl) as (s2 & Hf & Hiss & Hl2).
  { rewrite Forall_forall. intros Hf. destruct (Hf e He) as [_ Hn].
    contradiction. }
  exists s2. unfold set_forward. rewrite Hp. unfold bind. rewrite Hf.
  split; [reflexivity|]. split; assumption.
Qed.

End Reserve.

Section Info.
Context `{Host}.

(** X25: [_Device.get_display_info] returns the dictionary of
    [getPhysicalDisplayInfo] with the keys [orientation], [rotation],
    [max_x] and [max_y] set, and every other key as it was. *)
Theorem display_info_keeps_other_keys p1 p2 p3 s d s' :
  get_display_info p1 p2 p3 s = (Ok d, s') ->
  exists info s1 orientation max_x max_y,
    p1 s = (Ok info, s1)
    /\ d !! "orientation" = Some (VInt orientation)
    /\ d !! "rotation" = Some (VInt (orientation * 90))
    /\ d !! "max_x" = Some (of_optional max_x)
    /\ d !! "max_y" = Some (of_optional max_y)
    /\ forall k, k <> "orientation" -> k <> "rotation" -> k <> "max_x" ->
                 k <> "max_y" -> d !! k = info !! k.
Proof.
  unfold get_display_info. unfold bind at 1.
  destruct (p1 s) as [[info|e] s1]; [|discriminate].
  unfold bind at 1. destruct (p2 s1) as [[o|e] s2]; [|discriminate].
  unfold bind. destruct (p3 s2) as [[[mx my]|e] s3]; [|discriminate].
  intros [= <- <-]. exists info, s1, o, mx, my.
  split; [reflexivity|].
  split; [rewrite !lookup_insert_ne by discriminate; apply lookup_insert_eq|].
  split; [rewrite !lookup_insert_ne by discriminate; apply lookup_insert_eq|].
  split; [rewrite !lookup_insert_ne by discriminate; apply lookup_insert_eq|].
  split; [apply lookup_insert_eq|].
  intros k H1 H2 H3 H4.
  rewrite !lookup_insert_ne by congruence. reflexivity.
Qed.

End Info.

(** X18: the forward list the bridge prints, one line of serial, local
    and remote for each entry, is read back entry by entry and in order. *)
Theorem parse_forwards_render rows :
  Forall (fun r => is_word (row_serial r) = true
                   /\ is_word (row_local r) = true
                   /\ is_word (row_remote r) = true) rows ->
  parse_forwards (render rows)
  = map (fun r => mkFwd (row_local r) (row_remote r)) rows.
Proof.
  induction 1 as [|r rows (Hs & Hl & Hr) _ IH]; [reflexivity|].
  change (render (r :: rows)) with (render_row r ++ render rows)%string.
  replace (render_row r) with (render [r])
    by (cbn [render]; apply append_nil_r).
  rewrite parse_render_app, IH. cbn [render]. rewrite append_nil_r.
  destruct r as [sr lo re]. cbn [row_serial row_local row_remote] in *.
  rewrite (parse_render_row sr lo re Hs Hl Hr). reflexivity.
Qed.

(** X26: the entry [get_forwards] reads from a line depends only on the
    words of the line: a line of exactly three words gives the second and
    the third as local and remote, any other line gives nothing. *)
Theorem forward_of_line_words line :
  forward_of_line line
  = match split line with
    | [_; local; remote] => Some (mkFwd local remote)
    | _ => None
    end.
Proof.
  unfold forward_of_line. rewrite split_strip.
  destruct (strip line) eqn:E; [|reflexivity].
  cbn [is_empty]. rewrite <- split_strip, E. reflexivity.
Qed.

Lemma device_entry_filter state line :
  device_entry state line
  = match device_entry None line with
    | Some p =>
      if truthy state && negb (bool_decide (Some (snd p) = state))
      then None else Some p
    | None => None
    end.
Proof.
  unfold device_entry. destruct (is_empty (strip line)); [reflexivity|].
  destruct (device_of_line (strip line)) as [[sn st]|]; reflexivity.
Qed.

(** X27: [devices(state)] is [devices()] restricted to the entries in
    that state; an empty [state] restricts nothing. *)
Theorem parse_devices_filter state out :
  parse_devices state out
  = if truthy state
    then filter (fun p => Some (snd p) = state) (parse_devices None out)
    else parse_devices None out.
Proof.
  unfold parse_devices. induction (splitlines out) as [|line ls IH].
  - destruct (truthy state); reflexivity.
  - cbn [omap list_omap]. rewrite IH, (device_entry_filter state line).
    destruct (device_entry None line) as [p|]; [|reflexivity].
    destruct (truthy state); [|reflexivity]. cbn [andb].
    destruct (decide (Some (snd p) = state)) as [E|E].
    + rewrite bool_decide_eq_true_2 by exact E. cbn [negb].
      rewrite filter_cons_True by exact E. reflexivity.
    + rewrite bool_decide_eq_false_2 by exact E. cbn [negb].
      rewrite filter_cons_False by exact E. reflexivity.
Qed.

(** X28: every entry [devices] returns has a non-empty serial made of
    word characters, dots, colons and hyphens, and a non-empty state. *)
Theorem parse_devices_wellformed state out serialno cstate :
  (serialno, cstate) ∈ parse_devices state out ->
  serialno <> "" /\ all_chars is_serial_char serialno = true
  /\ cstate <> "".
Proof.
  unfold parse_devices. intros Hin.
  apply list_elem_of_omap in Hin as (line & _ & He).
  unfold device_entry in He.
  destruct (is_empty (strip line)); [discriminate|].
  destruct (device_of_line (strip line)) as [[sn st]|] eqn:Ed;
    [|discriminate].
  assert (sn = serialno /\ st = cstate) as [-> ->].
  { destruct (truthy state && negb (bool_decide (Some st = state)));
      [discriminate|]. injection He as <- <-. now split. }
  unfold device_of_line in Ed.
  destruct (split_on "009" (strip line)) as [|a [|b [|x r]]];
    try discriminate.
  destruct (negb (is_empty a) && all_chars is_serial_char a
            && negb (is_empty (chomp_lf b))
            && all_chars is_word_char (chomp_lf b)) eqn:Eb; [|discriminate].
  injection Ed as -> ->.
  apply andb_true_iff in Eb as [Eb _]. apply andb_true_iff in Eb as [Eb E3].
  apply andb_true_iff in Eb as [E1 E2].
  split; [|split; [exact E2|]].
  - intros ->. discriminate.
  - intros ->. discriminate.
Qed.

End DeviceExtras.

(** ** The properties above, on concrete runs *)

Module ExtraScenarios.
Import Minicap PyStr PyText Bridge Device Sim Cases Specs.
Import CaptureExtras DisplayExtras BridgeExtras DeviceExtras.
Open Scope string_scope.
Open Scope list_scope.
Open Scope Z_scope.

Lemma screencap_returned_frame_is_jpeg_witness :
  exists tl,
    frameBody (cap_final (@screencap raw_cv2 1080 1920 split_jpeg_frame))
    = PyBytes (xff :: xd8 :: tl).
Proof.
  apply (@screencap_returned_frame_is_jpeg raw_cv2 1080 1920
           split_jpeg_frame [xff; xd8; xff; xd9; x00]).
  vm_compute. reflexivity.
Defined.

Lemma screencap_whole_frame_TypeError_witness :
  cap_outcome (@screencap raw_cv2 1080 1920 whole_jpeg_frame)
  = Raised TypeError
  /\ cap_socket_closed (@screencap raw_cv2 1080 1920 whole_jpeg_frame)
     = false.
Proof.
  apply (@screencap_whole_frame_TypeError raw_cv2 1080 1920 x01 x18
           [x00; x00; x00; x00; x80; x07; x00; x00; x38; x04;
            x00; x00; x80; x07; x00; x00; x38; x04; x00; x00; x01; x00]
           x05 x00 x00 x00 [xff; xd8; xff; xd9; x00] []).
  - vm_compute. reflexivity.
  - discriminate.
  - vm_compute. discriminate.
Defined.

Lemma screencap_split_frame_witness :
  cap_outcome (@screencap raw_cv2 1080 1920 split_jpeg_frame)
  = @Returned raw_cv2 [xff; xd8; xff; xd9; x00]
  /\ cap_socket_closed (@screencap raw_cv2 1080 1920 split_jpeg_frame)
     = true.
Proof.
  apply (@screencap_split_frame raw_cv2 1080 1920 x01 x18
           [x00; x00; x00; x00; x80; x07; x00; x00; x38; x04;
            x00; x00; x80; x07; x00; x00; x38; x04; x00; x00; x01; x00]
           x05 x00 x00 x00 [xff] [xd8; xff; xd9; x00] [x01] []
           [xff; xd9; x00]).
  - vm_compute. reflexivity.
  - discriminate.
  - discriminate.
  - vm_compute. reflexivity.
  - reflexivity.
Defined.

Lemma minicap_display_info_sizes_witness :
  exists d,
    Minicap.get_display_info sized_info [(1440, 2560)] [480] = inr d
    /\ d !! "width" = Some (VInt 1440) /\ d !! "height" = Some (VInt 2560)
    /\ d !! "physical_width" = Some (VInt 1080)
    /\ d !! "physical_height" = Some (VInt 1920)
    /\ d !! "rotation" = Some (VInt 90).
Proof.
  destruct (Minicap.get_display_info sized_info [(1440, 2560)] [480])
    as [e|d] eqn:E; [vm_compute in E; discriminate E|].
  exists d. split; [reflexivity|].
  exact (minicap_display_info_sizes sized_info 1440 2560 [] [480] d E).
Defined.


Lemma cmd_error_precedence_witness :
  fst (@cmd replay_host (emulator 26) (CmdStr "devices") false true
            (Some 5) true (replay (mkProc [] [] 0 true)))
  = Err TimeoutExpired
  /\ fst (@cmd replay_host (emulator 26) (CmdStr "devices") false true
               None true (replay (mkProc [xff] [] 0 false)))
     = Err UnicodeDecodeError.
Proof.
  split.
  - apply (proj1 (@cmd_error_precedence replay_host (emulator 26)
                    (CmdStr "devices") false (Some 5) true
                    (replay (mkProc [] [] 0 true)) ["adb"; "devices"]
                    (mkProc [] [] 0 true) (mkProc [] [] 0 true)
                    eq_refl eq_refl)); reflexivity.
  - apply (proj1 (proj2 (@cmd_error_precedence replay_host (emulator 26)
                    (CmdStr "devices") false None true
                    (replay (mkProc [xff] [] 0 false)) ["adb"; "devices"]
                    (mkProc [xff] [] 0 false) (mkProc [xff] [] 0 false)
                    eq_refl eq_refl))); [reflexivity | left; reflexivity].
Defined.


Lemma shell_new_sdk_witness :
  @shell sim_host (emulator 26) (CmdStr "false") (silent 1)
  = (Err TypeError,
     snd (@raw_shell sim_host (emulator 26) (CmdStr "false") true false
                     (silent 1))).
Proof.
  apply (@shell_new_sdk sim_host (emulator 26) (CmdStr "false") (silent 1)).
  vm_compute. discriminate.
Defined.

Lemma get_forwards_ignores_returncode_witness :
  fst (@get_forwards replay_host (emulator 26)
         (replay (mkProc (bytes_of ("emulator-5554 tcp:1 localabstract:minicap"
                                    ++ newline)%string) [] 1 false)))
  = Ok [mkFwd "tcp:1" "localabstract:minicap"].
Proof.
  apply (proj1 (@get_forwards_ignores_returncode replay_host (emulator 26)
                  (replay (mkProc (bytes_of
                             ("emulator-5554 tcp:1 localabstract:minicap"
                              ++ newline)%string) [] 1 false))
                  _ _ ("emulator-5554 tcp:1 localabstract:minicap"
                       ++ newline)%string eq_refl eq_refl)).
  exists "". reflexivity.
Defined.

Lemma forward_propagates_AdbError_witness :
  fst (@forward sim_host (emulator 26) "tcp: 1" "localabstract:minicap" true
                (silent 0))
  = Err (AdbError (OStr "") (OStr "error: bad forward specification")
                  (CmdList ["forward"; "--no-rebind"; "tcp: 1";
                            "localabstract:minicap"])).
Proof.
  apply (@forward_propagates_AdbError sim_host (emulator 26) "tcp: 1"
           "localabstract:minicap" true (silent 0) "e"%char "mulator-5554"
           [] (snd (@get_forwards sim_host (emulator 26) (silent 0)))
           (mkProc [] (bytes_of "error: bad forward specification") 1 false)
           (st_world (silent 0)) "" "error: bad forward specification").
  - reflexivity.
  - reflexivity.
  - constructor.
  - reflexivity.
  - reflexivity.
  - reflexivity.
  - reflexivity.
Defined.

Lemma shell_old_sdk_round_trip_witness :
  @shell sim_host (emulator 22) (CmdStr "echo hello")
         (printing ("hello" ++ newline ++ "---0---" ++ String "013" newline)
                   "" 0)
  = (Ok ("hello" ++ newline)%string,
     snd (@raw_shell sim_host (emulator 22)
            (CmdList ["echo"; "hello"; ";"; "echo"; "---$?---"]) true false
            (printing ("hello" ++ newline ++ "---0---"
                       ++ String "013" newline) "" 0))).
Proof.
  apply (@shell_old_sdk_round_trip sim_host (emulator 22)
           (CmdStr "echo hello")
           (printing ("hello" ++ newline ++ "---0---"
                      ++ String "013" newline) "" 0)
           ("hello" ++ newline)%string 0 (String "013" newline)).
  - reflexivity.
  - vm_compute. reflexivity.
  - lia.
  - reflexivity.
Defined.

Lemma parse_forwards_render_witness :
  parse_forwards
    (render [mkRow "emulator-5554" "tcp:1" "localabstract:minicap";
             mkRow "emulator-5554" "tcp:2" "localabstract:minitouch"])
  = [mkFwd "tcp:1" "localabstract:minicap";
     mkFwd "tcp:2" "localabstract:minitouch"].
Proof.
  apply (parse_forwards_render
           [mkRow "emulator-5554" "tcp:1" "localabstract:minicap";
            mkRow "emulator-5554" "tcp:2" "localabstract:minitouch"]).
  repeat constructor.
Defined.

Lemma get_forward_port_cases_witness :
  fst (@get_forward_port sim_host (emulator 26) "minitouch"
                         minicap_forwarded) = Ok None
  /\ fst (@get_forward_port sim_host (emulator 26) "minicap"
                            minicap_forwarded) = Ok (Some 1).
Proof.
  pose proof (@get_forward_port_cases sim_host (emulator 26)) as Hc.
  split.
  - rewrite (proj1 (Hc "minitouch" minicap_forwarded
                       [mkFwd "tcp:1" "localabstract:minicap"]
                       (snd (@get_forwards sim_host (emulator 26)
                                           minicap_forwarded)) eq_refl));
      [reflexivity|].
    repeat constructor. discriminate.
  - rewrite (proj2 (Hc "minicap" minicap_forwarded
                       [mkFwd "tcp:1" "localabstract:minicap"]
                       (snd (@get_forwards sim_host (emulator 26)
                                           minicap_forwarded)) eq_refl)
                   0%nat (mkFwd "tcp:1" "localabstract:minicap") 1
                   (snd (@get_forwards sim_host (emulator 26)
                           (snd (@get_forwards sim_host (emulator 26)
                                               minicap_forwarded)))));
      [reflexivity | reflexivity | reflexivity | reflexivity
       | intros j e' Hj; lia | reflexivity | lia].
Defined.

Lemma getDisplayOrientation_nonneg_witness :
  fst (@getDisplayOrientation sim_host (emulator 26)
         (printing "  orientation=3" "" 0)) = Ok 3
  /\ 0 <= 3.
Proof.
  split; [vm_compute; reflexivity|].
  apply (@getDisplayOrientation_nonneg sim_host (emulator 26)
           (printing "  orientation=3" "" 0) 3).
  vm_compute. reflexivity.
Defined.

Lemma getMaxXY_none_iff_witness :
  exists max_x max_y,
    @getMaxXY sim_host (emulator 26) (printing getevent_output "" 0)
    = (Ok (max_x, max_y),
       snd (@shell sim_host (emulator 26) (CmdStr "getevent -p")
                   (printing getevent_output "" 0)))
    /\ (max_x = None
        <-> Forall (fun i => contains "0035" i = false
                             \/ search_digits_after "max " i = None)
                   (split_on "010" getevent_output))
    /\ (max_y = None
        <-> Forall (fun i => contains "0036" i = false
                             \/ search_digits_after "max " i = None)
                   (split_on "010" getevent_output)).
Proof.
  apply (@getMaxXY_none_iff sim_host (emulator 26)
           (printing getevent_output "" 0) getevent_output).
  vm_compute. reflexivity.
Defined.

Lemma list_app_IndexError_iff_witness :
  fst (@list_app sim_host (emulator 26) true
         (printing ("package:com.a" ++ newline ++ "com.b" ++ newline) "" 0))
  = Err IndexError.
Proof.
  apply (proj1 (@list_app_IndexError_iff sim_host (emulator 26) true
                  (printing ("package:com.a" ++ newline ++ "com.b" ++ newline)
                            "" 0)
                  ("package:com.a" ++ newline ++ "com.b" ++ newline)%string
                  (snd (@shell sim_host (emulator 26)
                          (CmdList ["pm"; "list"; "packages"; "-3"])
                          (printing ("package:com.a" ++ newline ++ "com.b"
                                     ++ newline) "" 0)))
                  ltac:(vm_compute; reflexivity))).
  apply Exists_cons_tl, Exists_cons_hd. split; [discriminate | reflexivity].
Defined.

Lemma connect_cases_witness :
  @connect sim_host (emulator 26) false (silent 0) = (Ok tt, silent 0)
  /\ @connect sim_host remote_device false
              (printing ("device" ++ newline) "" 0)
     = @connect sim_host remote_device true
                (snd (@get_status sim_host remote_device
                        (printing ("device" ++ newline) "" 0))).
Proof.
  split.
  - apply (proj1 (@connect_cases sim_host (emulator 26) false (silent 0))).
    reflexivity.
  - apply (proj2 (@connect_cases sim_host remote_device false
                    (printing ("device" ++ newline) "" 0))
                 "10.0.0.2:5555" (Some "device")).
    + reflexivity.
    + reflexivity.
    + vm_compute. reflexivity.
    + discriminate.
Defined.

Lemma set_forward_listed_remote_witness :
  exists s2,
    @set_forward sim_host (scripted_ports [] 0%N []) (emulator 26)
                 1000 0 "localabstract:minicap" minicap_forwarded
    = (Ok (11111, "localabstract:minicap"), s2)
    /\ issued_since minicap_forwarded s2
       = [list_argv (emulator 26); list_argv (emulator 26)]
    /\ live (emulator 26) s2 = Ok [mkFwd "tcp:1" "localabstract:minicap"].
Proof.
  apply (@set_forward_listed_remote sim_host (scripted_ports [] 0%N [])
           (emulator 26) "tcp:1" "localabstract:minicap"
           (SimFacts.sim_contract _ _ _ _) 1000 0 "localabstract:minicap"
           minicap_forwarded "e"%char "mulator-5554"
           [mkFwd "tcp:1" "localabstract:minicap"] 11111
           (mkFwd "tcp:1" "localabstract:minicap")).
  - reflexivity.
  - reflexivity.
  - vm_compute. reflexivity.
  - constructor.
  - reflexivity.
Defined.

Lemma display_info_keeps_other_keys_witness :
  exists info s1 orientation max_x max_y,
    @ret sim_host _ sized_info (silent 0) = (Ok info, s1)
    /\ (<["max_y" := VNone]>
          (<["max_x" := VNone]>
             (<["rotation" := VInt (1 * 90)]>
                (<["orientation" := VInt 1]> sized_info)))) !! "orientation"
       = Some (VInt orientation)
    /\ (<["max_y" := VNone]>
          (<["max_x" := VNone]>
             (<["rotation" := VInt (1 * 90)]>
                (<["orientation" := VInt 1]> sized_info)))) !! "rotation"
       = Some (VInt (orientation * 90))
    /\ (<["max_y" := VNone]>
          (<["max_x" := VNone]>
             (<["rotation" := VInt (1 * 90)]>
                (<["orientation" := VInt 1]> sized_info)))) !! "max_x"
       = Some (of_optional max_x)
    /\ (<["max_y" := VNone]>
          (<["max_x" := VNone]>
             (<["rotation" := VInt (1 * 90)]>
                (<["orientation" := VInt 1]> sized_info)))) !! "max_y"
       = Some (of_optional max_y)
    /\ forall k, k <> "orientation" -> k <> "rotation" -> k <> "max_x" ->
                 k <> "max_y" ->
                 (<["max_y" := VNone]>
                    (<["max_x" := VNone]>
                       (<["rotation" := VInt (1 * 90)]>
                          (<["orientation" := VInt 1]> sized_info)))) !! k
                 = info !! k.
Proof.
  apply (@display_info_keeps_other_keys sim_host (ret sized_info) (ret 1)
           (ret (None, None)) (silent 0) _ (silent 0)).
  reflexivity.
Defined.

Lemma parse_devices_wellformed_witness :
  parse_devices None
    ("List of devices attached" ++ newline
     ++ "emulator-5554" ++ String "009" "device" ++ newline ++ newline)
  = [("emulator-5554", "device")]
  /\ "emulator-5554" <> ""
  /\ all_chars is_serial_char "emulator-5554" = true
  /\ "device" <> "".
Proof.
  split; [vm_compute; reflexivity|].
  apply (parse_devices_wellformed None
           ("List of devices attached" ++ newline
            ++ "emulator-5554" ++ String "009" "device" ++ newline
            ++ newline)%string "emulator-5554" "device").
  vm_compute. constructor.
Defined.

End ExtraScenarios.
